(** * liburing: the submission and completion rings of [src/io_uring.c]

    A shallow embedding of the ring-buffer manager ([io_uring_get_iocb],
    [io_uring_submit], [io_uring_get_completion], [io_uring_mmap]) and of the
    system-call layer ([src/syscall.c]), with the properties of the design
    document proved about it.

    Conventions.
    - A C [unsigned] is a [Z] in [0, 2^32); every addition and subtraction of
      the source is written with its wrap-around ([u32]).
    - The rings live in memory shared with the kernel.  In module [Queue] a
      pointer field of a descriptor ([sq->khead], [cq->ktail], ...) designates
      one cell of a live mapping and the model stores the content of that cell
      under the field's name; the cells are distinct.  Module [Setup] models
      the addresses themselves, as [io_uring_mmap] computes them.
    - The kernel is an environment: what it writes becomes visible to the
      library at a [read_barrier()] and during a system call, and it only
      writes the cells it owns. *)

From Stdlib Require Import ZArith List Bool Lia.
Import ListNotations.
Open Scope Z_scope.

(** ** Unsigned 32-bit arithmetic *)

Definition U32_MOD : Z := 2 ^ 32.

(** The value of a C [unsigned] expression whose mathematical value is [x]. *)
Definition u32 (x : Z) : Z := x mod U32_MOD.

(** [x] is a value of type [unsigned]. *)
Definition is_u32 (x : Z) : Prop := 0 <= x < U32_MOD.

Module Queue.

(** ** The descriptors *)

(** [struct io_uring_sq]: the kernel-shared cells ([khead] .. [array]) and the
    producer-local shadow indices. *)
Record io_uring_sq : Type := mk_sq {
  sq_khead : Z;
  sq_ktail : Z;
  sq_kring_mask : Z;
  sq_kring_entries : Z;
  sq_kflags : Z;
  sq_kdropped : Z;
  sq_array : Z -> Z;
  iocb_head : Z;
  iocb_tail : Z;
  sq_ring_sz : Z
}.

(** [struct io_uring_cq].  The records of [cq->events] are written by the
    kernel and never read by the library, which hands out references to them:
    a reference [&cq->events[i]] is the index [i]. *)
Record io_uring_cq : Type := mk_cq {
  cq_khead : Z;
  cq_ktail : Z;
  cq_kring_mask : Z;
  cq_kring_entries : Z;
  cq_koverflow : Z;
  cq_ring_sz : Z
}.

(** A pointer into one of the mapped arrays: [None] is [NULL], [Some i] is the
    address of element [i] (the arrays are live mappings, so never [NULL]). *)
Definition ref : Type := option Z.

Definition set_iocb_tail (v : Z) (sq : io_uring_sq) : io_uring_sq :=
  mk_sq (sq_khead sq) (sq_ktail sq) (sq_kring_mask sq) (sq_kring_entries sq)
        (sq_kflags sq) (sq_kdropped sq) (sq_array sq)
        (iocb_head sq) v (sq_ring_sz sq).

Definition set_iocb_head (v : Z) (sq : io_uring_sq) : io_uring_sq :=
  mk_sq (sq_khead sq) (sq_ktail sq) (sq_kring_mask sq) (sq_kring_entries sq)
        (sq_kflags sq) (sq_kdropped sq) (sq_array sq)
        v (iocb_tail sq) (sq_ring_sz sq).

Definition set_sq_ktail (v : Z) (sq : io_uring_sq) : io_uring_sq :=
  mk_sq (sq_khead sq) v (sq_kring_mask sq) (sq_kring_entries sq)
        (sq_kflags sq) (sq_kdropped sq) (sq_array sq)
        (iocb_head sq) (iocb_tail sq) (sq_ring_sz sq).

(** [a[i] = v] on an array seen as a function of the index. *)
Definition upd (a : Z -> Z) (i v : Z) : Z -> Z :=
  fun j => if j =? i then v else a j.

Definition set_sq_array (i v : Z) (sq : io_uring_sq) : io_uring_sq :=
  mk_sq (sq_khead sq) (sq_ktail sq) (sq_kring_mask sq) (sq_kring_entries sq)
        (sq_kflags sq) (sq_kdropped sq) (upd (sq_array sq) i v)
        (iocb_head sq) (iocb_tail sq) (sq_ring_sz sq).

Definition set_cq_khead (v : Z) (cq : io_uring_cq) : io_uring_cq :=
  mk_cq v (cq_ktail cq) (cq_kring_mask cq) (cq_kring_entries cq)
        (cq_koverflow cq) (cq_ring_sz cq).

(** ** Submission-slot acquisition *)

(** The number of descriptors acquired and not yet published,
    [iocb_tail - iocb_head] in [unsigned] arithmetic. *)
Definition sq_occupancy (sq : io_uring_sq) : Z :=
  u32 (iocb_tail sq - iocb_head sq).

(** The test [next - sq->iocb_head > *sq->kring_entries] of
    [io_uring_get_iocb], with [next = sq->iocb_tail + 1]. *)
Definition sq_full (sq : io_uring_sq) : bool :=
  let next := u32 (iocb_tail sq + 1) in
  u32 (next - iocb_head sq) >? sq_kring_entries sq.

(** [io_uring_get_iocb]: the returned pointer and the descriptor after the
    call. *)
Definition io_uring_get_iocb (sq : io_uring_sq) : ref * io_uring_sq :=
  let next := u32 (iocb_tail sq + 1) in
  if u32 (next - iocb_head sq) >? sq_kring_entries sq then (None, sq)
  else
    let iocb := Some (Z.land (iocb_tail sq) (sq_kring_mask sq)) in
    (iocb, set_iocb_tail next sq).

(** The fields of a submission descriptor hold values of type [unsigned]. *)
Definition sq_wf (sq : io_uring_sq) : Prop :=
  is_u32 (sq_khead sq) /\ is_u32 (sq_ktail sq) /\
  is_u32 (sq_kring_mask sq) /\ is_u32 (sq_kring_entries sq) /\
  is_u32 (iocb_head sq) /\ is_u32 (iocb_tail sq).

(** ** The shared world: library, kernel and the log of what crossed between
    them *)

(** The cells of shared memory the library stores to. *)
Inductive cell : Type :=
| SqTail
| SqArray (i : Z)
| CqHead.

(** What a call does that the other party can see, most recent first. *)
Inductive event : Type :=
| EvReadBarrier
| EvWriteBarrier
| EvStore (c : cell) (v : Z)
| EvSyscall (nr : Z) (args : list Z) (ret : Z).

Section Engine.

(** The engine's own state; the library never looks into it. *)
Variable engine : Type.

(** The cells the kernel writes: the SQ consumer index, the CQ producer index
    and the status words.  The masks and the capacities are written once,
    when the rings are created, and are no part of it. *)
Record kernel_cells : Type := mk_cells {
  kc_sq_khead : Z;
  kc_sq_kflags : Z;
  kc_sq_kdropped : Z;
  kc_cq_ktail : Z;
  kc_cq_koverflow : Z;
  kc_engine : engine
}.

Record world : Type := mk_world {
  w_sq : io_uring_sq;
  w_cq : io_uring_cq;
  w_errno : Z;
  w_engine : engine;
  w_trace : list event
}.

(** What [syscall(2)] gives back: its result, [errno] after the call, and the
    kernel's cells after it. *)
Record syscall_result : Type := mk_result {
  sys_ret : Z;
  sys_errno : Z;
  sys_cells : kernel_cells
}.

(** The kernel.  [engine_progress w] is what it has written by the time the
    library passes a read barrier in [w]; [engine_syscall w nr args] is its
    answer to a system call. *)
Variable engine_progress : world -> kernel_cells.
Variable engine_syscall : world -> Z -> list Z -> syscall_result.

(** The flag of [io_uring.h], a header that is not part of the sources. *)
Variable IORING_ENTER_GETEVENTS : Z.

Definition update_sq (f : io_uring_sq -> io_uring_sq) (w : world) : world :=
  mk_world (f (w_sq w)) (w_cq w) (w_errno w) (w_engine w) (w_trace w).

Definition update_cq (f : io_uring_cq -> io_uring_cq) (w : world) : world :=
  mk_world (w_sq w) (f (w_cq w)) (w_errno w) (w_engine w) (w_trace w).

Definition log (e : event) (w : world) : world :=
  mk_world (w_sq w) (w_cq w) (w_errno w) (w_engine w) (e :: w_trace w).

(** The kernel's cells take the values [kc]; the library's are untouched. *)
Definition kernel_writes (kc : kernel_cells) (w : world) : world :=
  let sq := w_sq w in
  let cq := w_cq w in
  mk_world
    (mk_sq (kc_sq_khead kc) (sq_ktail sq) (sq_kring_mask sq)
           (sq_kring_entries sq) (kc_sq_kflags kc) (kc_sq_kdropped kc)
           (sq_array sq) (iocb_head sq) (iocb_tail sq) (sq_ring_sz sq))
    (mk_cq (cq_khead cq) (kc_cq_ktail kc) (cq_kring_mask cq)
           (cq_kring_entries cq) (kc_cq_koverflow kc) (cq_ring_sz cq))
    (w_errno w) (kc_engine kc) (w_trace w).

Definition set_errno (e : Z) (w : world) : world :=
  mk_world (w_sq w) (w_cq w) e (w_engine w) (w_trace w).

(** [barrier.h]: after [read_barrier()] the library sees what the kernel has
    published; [write_barrier()] orders the library's own stores. *)
Definition read_barrier (w : world) : world :=
  log EvReadBarrier (kernel_writes (engine_progress w) w).

Definition write_barrier (w : world) : world := log EvWriteBarrier w.

(** A store of the library to a shared cell. *)
Definition store_sq_ktail (v : Z) (w : world) : world :=
  log (EvStore SqTail v) (update_sq (set_sq_ktail v) w).

Definition store_sq_array (i v : Z) (w : world) : world :=
  log (EvStore (SqArray i) v) (update_sq (set_sq_array i v) w).

Definition store_cq_khead (v : Z) (w : world) : world :=
  log (EvStore CqHead v) (update_cq (set_cq_khead v) w).

(** ** [src/syscall.c] *)

Definition syscall (nr : Z) (args : list Z) (w : world) : Z * world :=
  let r := engine_syscall w nr args in
  (sys_ret r,
   log (EvSyscall nr args (sys_ret r))
       (set_errno (sys_errno r) (kernel_writes (sys_cells r) w))).

Definition NR_sys_io_uring_setup : Z := 335.
Definition NR_sys_io_uring_enter : Z := 336.

(** [io_uring_setup]; the two pointers are passed as addresses. *)
Definition io_uring_setup (entries iovecs p : Z) (w : world) : Z * world :=
  syscall NR_sys_io_uring_setup [entries; iovecs; p] w.

Definition io_uring_enter (fd to_submit min_complete flags : Z) (w : world)
  : Z * world :=
  syscall NR_sys_io_uring_enter [fd; to_submit; min_complete; flags] w.

(** ** Submission publish *)

(** The [while] loop of [io_uring_submit]; [n] bounds the number of turns.
    Returns the world and the locals [ktail] and [submitted] at the exit. *)
Fixpoint submit_fill (n : nat) (mask : Z) (w : world)
  (ktail ktail_next submitted : Z) : world * Z * Z :=
  match n with
  | O => (w, ktail, submitted)
  | S n' =>
    if iocb_head (w_sq w) <? iocb_tail (w_sq w) then
      let ktail_next := u32 (ktail_next + 1) in
      let w := read_barrier w in
      if ktail_next =? sq_khead (w_sq w) then (w, ktail, submitted)
      else
        let w := store_sq_array (Z.land ktail mask)
                                (Z.land (iocb_head (w_sq w)) mask) w in
        let ktail := ktail_next in
        let w := update_sq (set_iocb_head (u32 (iocb_head (w_sq w) + 1))) w in
        submit_fill n' mask w ktail ktail_next (u32 (submitted + 1))
    else (w, ktail, submitted)
  end.

(** Where the code of [io_uring_submit] before the label [submit:] ends:
    at a [return 0], or at the label with the local [submitted]. *)
Inductive submit_prep : Type :=
| Return0 (w : world)
| Submit (submitted : Z) (w : world).

(** The body of [io_uring_submit] up to the label [submit:].  Every turn of
    the loop advances [iocb_head], so [iocb_tail - iocb_head] turns are
    enough ([submit_fill_fuel]). *)
Definition submit_prepare (w : world) : submit_prep :=
  let mask := sq_kring_mask (w_sq w) in
  let w := read_barrier w in
  if negb (sq_khead (w_sq w) =? sq_ktail (w_sq w)) then
    Submit (sq_kring_entries (w_sq w)) w
  else if iocb_head (w_sq w) =? iocb_tail (w_sq w) then Return0 w
  else
    let ktail0 := sq_ktail (w_sq w) in
    let turns := Z.to_nat (iocb_tail (w_sq w) - iocb_head (w_sq w)) in
    let '(w, ktail, submitted) := submit_fill turns mask w ktail0 ktail0 0 in
    if submitted =? 0 then Return0 w
    else
      let w :=
        if negb (sq_ktail (w_sq w) =? ktail) then
          write_barrier (store_sq_ktail ktail (write_barrier w))
        else w in
      Submit submitted w.

(** [io_uring_submit]: the value returned and the world after the call. *)
Definition io_uring_submit (fd : Z) (w : world) : Z * world :=
  match submit_prepare w with
  | Return0 w => (0, w)
  | Submit submitted w => io_uring_enter fd submitted 0 IORING_ENTER_GETEVENTS w
  end.

(** ** Completion retrieval *)

(** How the [do ... while (1)] loop of [io_uring_get_completion] is left. *)
Inductive wait_exit : Type :=
| Break (ev : ref) (w : world)
| ReturnErr (r : Z) (w : world).

(** The loop, for at most [n] turns ([None]: still waiting after [n]). *)
Fixpoint completion_wait (n : nat) (fd head mask : Z) (w : world)
  : option wait_exit :=
  match n with
  | O => None
  | S n' =>
    let w := read_barrier w in
    if negb (head =? cq_ktail (w_cq w)) then
      Some (Break (Some (Z.land head mask)) w)
    else
      let '(ret, w) := io_uring_enter fd 0 1 IORING_ENTER_GETEVENTS w in
      if ret <? 0 then Some (ReturnErr (- w_errno w) w)
      else completion_wait n' fd head mask w
  end.

(** [io_uring_get_completion], given the content of [*ev_ptr] before the
    call: the value returned, the world and [*ev_ptr] after the call. *)
Definition io_uring_get_completion (n : nat) (fd : Z) (w : world) (ev_ptr : ref)
  : option (Z * world * ref) :=
  let mask := cq_kring_mask (w_cq w) in
  let head := cq_khead (w_cq w) in
  match completion_wait n fd head mask w with
  | None => None
  | Some (ReturnErr r w) => Some (r, w, ev_ptr)
  | Some (Break ev w) =>
    let w :=
      match ev with
      | Some _ => write_barrier (store_cq_khead (u32 (head + 1)) w)
      | None => w
      end in
    Some (0, w, ev)
  end.

(** A turn of the loop in which nothing is visible: the result of its
    engine call, and the world that call leaves. *)
Definition wait_result (fd : Z) (w : world) : Z :=
  fst (io_uring_enter fd 0 1 IORING_ENTER_GETEVENTS (read_barrier w)).

Definition wait_turn (fd : Z) (w : world) : world :=
  snd (io_uring_enter fd 0 1 IORING_ENTER_GETEVENTS (read_barrier w)).

(** The world after [k] such turns. *)
Fixpoint after_waits (k : nat) (fd : Z) (w : world) : world :=
  match k with
  | O => w
  | S k' => after_waits k' fd (wait_turn fd w)
  end.

(** The first [k] turns from [w] found no completion (the kernel's tail, as
    seen after the read barrier, was [head]) and their engine calls did not
    fail. *)
Definition waited (k : nat) (fd head : Z) (w : world) : Prop :=
  forall j : nat, (j < k)%nat ->
  head = cq_ktail (w_cq (read_barrier (after_waits j fd w))) /\
  0 <= wait_result fd (after_waits j fd w).

(** ** Vocabulary of the properties *)

(** The cells and shadow indices the library owns. *)
Definition library_cells (w : world) : Z * (Z -> Z) * Z * Z * Z :=
  (sq_ktail (w_sq w), sq_array (w_sq w), iocb_head (w_sq w),
   iocb_tail (w_sq w), cq_khead (w_cq w)).

(** The kernel leaves the SQ head where it is: a read barrier shows the
    library the head it already knew. *)
Definition sq_head_held : Prop :=
  forall w : world, kc_sq_khead (engine_progress w) = sq_khead (w_sq w).

(** One turn of the loop of [io_uring_submit] that publishes: the world after
    it. *)
Definition fill_turn (mask kt : Z) (w : world) : world :=
  update_sq (set_iocb_head (u32 (iocb_head (w_sq w) + 1)))
    (store_sq_array (Z.land kt mask) (Z.land (iocb_head (w_sq w)) mask)
       (read_barrier w)).

(** * Properties *)

(** ** Arithmetic modulo 2^32 *)

Lemma U32_MOD_pos : 0 < U32_MOD.
Proof. reflexivity. Qed.

Lemma u32_range (x : Z) : is_u32 (u32 x).
Proof. unfold is_u32, u32. apply Z.mod_pos_bound, U32_MOD_pos. Qed.

Lemma u32_small (x : Z) : is_u32 x -> u32 x = x.
Proof. unfold is_u32, u32. intros H. apply Z.mod_small, H. Qed.

(** The index after [t], minus [h]: one more than [t - h], modulo 2^32. *)
Lemma u32_next_minus (t h : Z) : u32 (u32 (t + 1) - h) = u32 (u32 (t - h) + 1).
Proof.
  unfold u32.
  rewrite Zminus_mod_idemp_l, Zplus_mod_idemp_l.
  f_equal. lia.
Qed.

(** ** [io_uring_get_iocb] *)

Lemma sq_full_get_iocb (sq : io_uring_sq) :
  io_uring_get_iocb sq =
  if sq_full sq then (None, sq)
  else (Some (Z.land (iocb_tail sq) (sq_kring_mask sq)),
        set_iocb_tail (u32 (iocb_tail sq + 1)) sq).
Proof. reflexivity. Qed.

(** C2.  [io_uring_get_iocb] computes [next = iocb_tail + 1] and returns
    [NULL] exactly when [next - iocb_head > *kring_entries] (in [unsigned]
    arithmetic); otherwise it returns the slot at [iocb_tail & *kring_mask]
    and sets [iocb_tail] to [next], leaving every other field as it was. *)
Theorem get_iocb_null_iff_full (sq : io_uring_sq) :
  let next := u32 (iocb_tail sq + 1) in
  let r := io_uring_get_iocb sq in
  (fst r = None <-> u32 (next - iocb_head sq) > sq_kring_entries sq) /\
  (fst r = None \/
   (fst r = Some (Z.land (iocb_tail sq) (sq_kring_mask sq)) /\
    iocb_tail (snd r) = next /\
    snd r = set_iocb_tail next sq)).
Proof.
  cbv zeta. unfold io_uring_get_iocb.
  destruct (u32 (u32 (iocb_tail sq + 1) - iocb_head sq) >? sq_kring_entries sq)
    eqn:E; simpl.
  - split; [|now left]. split; [intros _|reflexivity].
    apply Z.gtb_gt, E.
  - split; [|right; repeat split].
    split; [discriminate|]. intros H. apply Z.gtb_gt in H. congruence.
Qed.

(** C9.  When [io_uring_get_iocb] returns [NULL] the descriptor is exactly as
    it was before the call. *)
Theorem get_iocb_null_unchanged (sq : io_uring_sq) :
  fst (io_uring_get_iocb sq) = None -> snd (io_uring_get_iocb sq) = sq.
Proof.
  unfold io_uring_get_iocb.
  destruct (_ >? _); simpl; [reflexivity | discriminate].
Qed.

(** X1.  A slot is handed out only while the occupancy stays within the
    capacity: after a successful acquisition
    [iocb_tail - iocb_head <= *kring_entries]. *)
Lemma get_iocb_occupancy (sq : io_uring_sq) :
  fst (io_uring_get_iocb sq) <> None ->
  sq_occupancy (snd (io_uring_get_iocb sq)) <= sq_kring_entries sq.
Proof.
  unfold io_uring_get_iocb, sq_occupancy.
  destruct (_ >? _) eqn:E; simpl; [congruence|].
  intros _. rewrite Z.gtb_ltb, Z.ltb_ge in E. exact E.
Qed.

(** The fullness test, read on the occupancy. *)
Lemma sq_full_occupancy (sq : io_uring_sq) :
  sq_full sq = (u32 (sq_occupancy sq + 1) >? sq_kring_entries sq).
Proof. unfold sq_full, sq_occupancy. now rewrite u32_next_minus. Qed.

(** ** The geometry of a ring *)

(** A submission ring of [2^k] entries, as the kernel lays rings out: the
    capacity is a power of two and the mask is the capacity minus one. *)
Definition sq_pow2 (k : Z) (sq : io_uring_sq) : Prop :=
  0 <= k <= 31 /\ sq_kring_entries sq = 2 ^ k /\ sq_kring_mask sq = 2 ^ k - 1.

Definition cq_pow2 (k : Z) (cq : io_uring_cq) : Prop :=
  0 <= k <= 31 /\ cq_kring_entries cq = 2 ^ k /\ cq_kring_mask cq = 2 ^ k - 1.

(** The fullness test is exact for every capacity below [UINT_MAX]. *)
Lemma sq_full_below_uint_max (sq : io_uring_sq) :
  sq_occupancy sq <= sq_kring_entries sq ->
  sq_kring_entries sq < U32_MOD - 1 ->
  (sq_full sq = true <-> sq_occupancy sq = sq_kring_entries sq).
Proof.
  intros Hocc Hcap.
  rewrite sq_full_occupancy.
  pose proof (u32_range (iocb_tail sq - iocb_head sq)) as Hr.
  fold (sq_occupancy sq) in Hr. unfold is_u32 in Hr.
  rewrite (u32_small (sq_occupancy sq + 1)) by (unfold is_u32; lia).
  rewrite Z.gtb_ltb, Z.ltb_lt. lia.
Qed.

(** C10.  On a ring as the kernel creates it ([2^k] entries) and under the
    occupancy invariant [iocb_tail - iocb_head <= *kring_entries] in
    [unsigned] arithmetic, the fullness test of [io_uring_get_iocb] is true
    exactly when the occupancy equals the capacity, wherever the free-running
    indices are in [0, 2^32), also after they have wrapped. *)
Theorem full_test_iff_occupancy_is_capacity (k : Z) (sq : io_uring_sq) :
  sq_pow2 k sq ->
  sq_occupancy sq <= sq_kring_entries sq ->
  (sq_full sq = true <-> sq_occupancy sq = sq_kring_entries sq).
Proof.
  intros (Hk & He & _) Hocc.
  apply sq_full_below_uint_max; [exact Hocc|].
  rewrite He. unfold U32_MOD.
  assert (2 ^ k <= 2 ^ 31) by (apply Z.pow_le_mono_r; lia).
  change (2 ^ 32) with (2 * 2 ^ 31). lia.
Qed.

(** ** What the kernel cannot change *)

Lemma kernel_writes_library_cells (kc : kernel_cells) (w : world) :
  library_cells (kernel_writes kc w) = library_cells w.
Proof. reflexivity. Qed.

Lemma read_barrier_library_cells (w : world) :
  library_cells (read_barrier w) = library_cells w.
Proof. reflexivity. Qed.

Lemma syscall_library_cells (nr : Z) (args : list Z) (w : world) :
  library_cells (snd (syscall nr args w)) = library_cells w.
Proof. reflexivity. Qed.

Lemma syscall_trace (nr : Z) (args : list Z) (w : world) :
  w_trace (snd (syscall nr args w)) =
  EvSyscall nr args (fst (syscall nr args w)) :: w_trace w.
Proof. reflexivity. Qed.

(** ** [io_uring_submit]: the paths that publish nothing *)

(** C8.  With the kernel-visible SQ head equal to the tail (as seen after the
    read barrier) and no descriptor queued, [io_uring_submit] returns 0; the
    only thing it did is the read barrier: no system call, no store, and the
    indices the library owns are as before. *)
Theorem submit_nothing_queued (fd : Z) (w : world) :
  sq_khead (w_sq (read_barrier w)) = sq_ktail (w_sq (read_barrier w)) ->
  iocb_head (w_sq w) = iocb_tail (w_sq w) ->
  io_uring_submit fd w = (0, read_barrier w) /\
  w_trace (snd (io_uring_submit fd w)) = EvReadBarrier :: w_trace w /\
  library_cells (snd (io_uring_submit fd w)) = library_cells w.
Proof.
  intros Hk Hq.
  assert (E : io_uring_submit fd w = (0, read_barrier w)).
  { unfold io_uring_submit, submit_prepare.
    rewrite Hk, Z.eqb_refl. simpl negb. cbv iota.
    change (iocb_head (w_sq (read_barrier w))) with (iocb_head (w_sq w)).
    change (iocb_tail (w_sq (read_barrier w))) with (iocb_tail (w_sq w)).
    rewrite Hq, Z.eqb_refl. reflexivity. }
  rewrite E. repeat split.
Qed.

(** C4.  With the kernel-visible SQ head and tail different on entry (as seen
    after the read barrier), [io_uring_submit] goes to the label [submit:]
    with [submitted = *sq->kring_entries], the entry count recorded in the
    ring: the call does a read barrier and the system call, stores nothing,
    and leaves the array and the indices of the library as they were. *)
Theorem submit_pending_goes_to_enter (fd : Z) (w : world) :
  sq_khead (w_sq (read_barrier w)) <> sq_ktail (w_sq (read_barrier w)) ->
  submit_prepare w = Submit (sq_kring_entries (w_sq w)) (read_barrier w) /\
  io_uring_submit fd w =
    io_uring_enter fd (sq_kring_entries (w_sq w)) 0 IORING_ENTER_GETEVENTS
                   (read_barrier w) /\
  w_trace (snd (io_uring_submit fd w)) =
    EvSyscall NR_sys_io_uring_enter
              [fd; sq_kring_entries (w_sq w); 0; IORING_ENTER_GETEVENTS]
              (fst (io_uring_submit fd w))
    :: EvReadBarrier :: w_trace w /\
  library_cells (snd (io_uring_submit fd w)) = library_cells w.
Proof.
  intros Hk.
  assert (E : submit_prepare w =
              Submit (sq_kring_entries (w_sq w)) (read_barrier w)).
  { unfold submit_prepare.
    apply Z.eqb_neq in Hk. rewrite Hk. reflexivity. }
  unfold io_uring_submit. rewrite E. repeat split.
Qed.

(** ** [io_uring_submit]: the engine call *)

(** C5 (amended).  Whenever [io_uring_submit] reaches the label [submit:],
    it makes one system call, [io_uring_enter] (number 336) with the arguments
    [fd], the local [submitted] as [to_submit], [min_complete = 0] and the
    flag [IORING_ENTER_GETEVENTS], and returns that call's result. *)
Theorem submit_enter_arguments (fd : Z) (w : world) (n : Z) (w1 : world) :
  submit_prepare w = Submit n w1 ->
  io_uring_submit fd w =
    syscall NR_sys_io_uring_enter [fd; n; 0; IORING_ENTER_GETEVENTS] w1 /\
  fst (io_uring_submit fd w) =
    sys_ret (engine_syscall w1 NR_sys_io_uring_enter
                            [fd; n; 0; IORING_ENTER_GETEVENTS]) /\
  w_trace (snd (io_uring_submit fd w)) =
    EvSyscall NR_sys_io_uring_enter [fd; n; 0; IORING_ENTER_GETEVENTS]
              (fst (io_uring_submit fd w))
    :: w_trace w1.
Proof.
  intros E. unfold io_uring_submit. rewrite E. repeat split.
Qed.

(** ** [io_uring_submit]: the loop *)

Lemma submit_fill_step (n : nat) (mask : Z) (w : world) (kt ktn sub : Z) :
  submit_fill (S n) mask w kt ktn sub =
  if iocb_head (w_sq w) <? iocb_tail (w_sq w) then
    if u32 (ktn + 1) =? sq_khead (w_sq (read_barrier w)) then
      (read_barrier w, kt, sub)
    else
      submit_fill n mask
        (update_sq (set_iocb_head (u32 (iocb_head (w_sq w) + 1)))
           (store_sq_array (Z.land kt mask) (Z.land (iocb_head (w_sq w)) mask)
              (read_barrier w)))
        (u32 (ktn + 1)) (u32 (ktn + 1)) (u32 (sub + 1))
  else (w, kt, sub).
Proof. reflexivity. Qed.

(** The loop is over after [iocb_tail - iocb_head] turns: more fuel changes
    nothing. *)
Lemma submit_fill_fuel (n : nat) :
  forall (mask : Z) (w : world) (kt ktn sub : Z),
  is_u32 (iocb_head (w_sq w)) -> is_u32 (iocb_tail (w_sq w)) ->
  iocb_tail (w_sq w) - iocb_head (w_sq w) <= Z.of_nat n ->
  submit_fill (S n) mask w kt ktn sub = submit_fill n mask w kt ktn sub.
Proof.
  induction n as [|n IH]; intros mask w kt ktn sub Hh Ht Hn.
  - rewrite submit_fill_step.
    destruct (iocb_head (w_sq w) <? iocb_tail (w_sq w)) eqn:E; [|reflexivity].
    apply Z.ltb_lt in E. simpl in Hn. lia.
  - rewrite (submit_fill_step (S n)), (submit_fill_step n mask w kt ktn sub).
    destruct (iocb_head (w_sq w) <? iocb_tail (w_sq w)) eqn:E; [|reflexivity].
    apply Z.ltb_lt in E.
    destruct (u32 (ktn + 1) =? sq_khead (w_sq (read_barrier w)));
      [reflexivity|].
    unfold is_u32 in *.
    apply IH; simpl; try assumption;
      rewrite u32_small by (unfold is_u32; lia); lia.
Qed.

(** So the number of turns [io_uring_submit] allows the loop is no bound on
    it: any larger number gives the same exit. *)
Lemma submit_fill_enough (k : nat) (mask : Z) (w : world) (kt ktn sub : Z) :
  is_u32 (iocb_head (w_sq w)) -> is_u32 (iocb_tail (w_sq w)) ->
  let turns := Z.to_nat (iocb_tail (w_sq w) - iocb_head (w_sq w)) in
  submit_fill (turns + k) mask w kt ktn sub = submit_fill turns mask w kt ktn sub.
Proof.
  intros Hh Ht turns. induction k as [|k IH].
  - now rewrite Nat.add_0_r.
  - rewrite Nat.add_succ_r, submit_fill_fuel; [exact IH|assumption ..|].
    subst turns. lia.
Qed.

(** The loop stores to the indirection array and advances [iocb_head]; it
    leaves the kernel-visible tail, [iocb_tail] and the completion ring's head
    alone, and the capacity is not a cell the kernel rewrites. *)
Lemma submit_fill_frame (n : nat) :
  forall (mask : Z) (w : world) (kt ktn sub : Z),
  let w' := fst (fst (submit_fill n mask w kt ktn sub)) in
  sq_ktail (w_sq w') = sq_ktail (w_sq w) /\
  iocb_tail (w_sq w') = iocb_tail (w_sq w) /\
  sq_kring_entries (w_sq w') = sq_kring_entries (w_sq w) /\
  cq_khead (w_cq w') = cq_khead (w_cq w).
Proof.
  induction n as [|n IH]; intros mask w kt ktn sub; cbv zeta.
  - simpl. repeat split.
  - rewrite submit_fill_step.
    destruct (_ <? _); [|simpl; repeat split].
    destruct (_ =? _); [simpl; repeat split|].
    specialize (IH mask (fill_turn mask kt w)
                   (u32 (ktn + 1)) (u32 (ktn + 1)) (u32 (sub + 1))).
    cbv zeta in IH. exact IH.
Qed.

(** [head + s] wraps back onto [head] only when [s] is a multiple of 2^32. *)
Lemma u32_add_fixpoint (h s : Z) :
  is_u32 h -> 0 < s < U32_MOD -> u32 (h + s) <> h.
Proof.
  unfold is_u32, u32, U32_MOD. intros Hh Hs E.
  destruct (Z_lt_le_dec (h + s) (2 ^ 32)) as [L|L].
  - rewrite Z.mod_small in E by lia. lia.
  - assert (E' : (h + s) mod 2 ^ 32 = h + s - 2 ^ 32).
    { symmetry. apply Z.mod_unique with (q := 1); lia. }
    lia.
Qed.

Lemma u32_add_succ (h s : Z) : u32 (u32 (h + s) + 1) = u32 (h + (s + 1)).
Proof. unfold u32. rewrite Zplus_mod_idemp_l. f_equal. lia. Qed.

(** On the publish path, with the kernel's head held at [kh] and the candidate
    tail at [kh + sub], the loop publishes every queued descriptor. *)
Lemma submit_fill_publish (n : nat) :
  sq_head_held ->
  forall (mask : Z) (w : world) (sub : Z),
  let h := iocb_head (w_sq w) in
  let t := iocb_tail (w_sq w) in
  let kh := sq_khead (w_sq w) in
  is_u32 kh -> is_u32 h -> is_u32 t ->
  t - h <= Z.of_nat n ->
  0 <= sub -> sub + (t - h) < U32_MOD ->
  let r := submit_fill n mask w (u32 (kh + sub)) (u32 (kh + sub)) sub in
  snd r = sub + Z.max 0 (t - h) /\
  snd (fst r) = u32 (kh + snd r) /\
  iocb_head (w_sq (fst (fst r))) = Z.max h t /\
  sq_khead (w_sq (fst (fst r))) = kh.
Proof.
  intros Hq.
  induction n as [|n IH]; intros mask w sub; cbv zeta;
    intros Hkh Hh Ht Hn Hs Hb.
  - simpl in *. replace (Z.max 0 _) with 0 by lia.
    rewrite Z.add_0_r. repeat split. lia.
  - rewrite submit_fill_step.
    destruct (iocb_head (w_sq w) <? iocb_tail (w_sq w)) eqn:E.
    + apply Z.ltb_lt in E.
      assert (Hk : sq_khead (w_sq (read_barrier w)) = sq_khead (w_sq w))
        by apply Hq.
      rewrite Hk, u32_add_succ.
      destruct (u32 (sq_khead (w_sq w) + (sub + 1)) =? sq_khead (w_sq w)) eqn:B.
      { apply Z.eqb_eq in B. exfalso.
        revert B. apply u32_add_fixpoint; [assumption|lia]. }
      unfold is_u32 in Hh, Ht.
      rewrite (u32_small (sub + 1)) by (unfold is_u32; lia).
      rewrite (u32_small (iocb_head (w_sq w) + 1)) by (unfold is_u32; lia).
      specialize (IH mask
        (update_sq (set_iocb_head (iocb_head (w_sq w) + 1))
           (store_sq_array (Z.land (u32 (sq_khead (w_sq w) + sub)) mask)
              (Z.land (iocb_head (w_sq w)) mask) (read_barrier w)))
        (sub + 1)).
      cbv zeta in IH. simpl w_sq in IH. simpl iocb_head in IH.
      simpl iocb_tail in IH. simpl sq_khead in IH.
      rewrite (Hq w) in IH.
      rewrite Nat2Z.inj_succ in Hn.
      assert (Hh' : is_u32 (iocb_head (w_sq w) + 1)) by (unfold is_u32; lia).
      destruct (IH Hkh Hh' Ht) as (I1 & I2 & I3 & I4); [lia .. |].
      repeat split; [rewrite I1; lia | exact I2 | rewrite I3; lia | exact I4].
    + apply Z.ltb_ge in E. simpl.
      replace (Z.max 0 _) with 0 by lia.
      rewrite Z.add_0_r. repeat split. lia.
Qed.

Lemma submit_fill_publish_from (n : nat) (mask : Z) (w : world) (kt sub : Z) :
  sq_head_held ->
  is_u32 (sq_khead (w_sq w)) ->
  is_u32 (iocb_head (w_sq w)) -> is_u32 (iocb_tail (w_sq w)) ->
  iocb_tail (w_sq w) - iocb_head (w_sq w) <= Z.of_nat n ->
  0 <= sub -> sub + (iocb_tail (w_sq w) - iocb_head (w_sq w)) < U32_MOD ->
  kt = u32 (sq_khead (w_sq w) + sub) ->
  forall (w' : world) (kt' sub' : Z),
  submit_fill n mask w kt kt sub = (w', kt', sub') ->
  sub' = sub + Z.max 0 (iocb_tail (w_sq w) - iocb_head (w_sq w)) /\
  kt' = u32 (sq_khead (w_sq w) + sub') /\
  iocb_head (w_sq w') = Z.max (iocb_head (w_sq w)) (iocb_tail (w_sq w)) /\
  sq_khead (w_sq w') = sq_khead (w_sq w).
Proof.
  intros Hq Hkh Hh Ht Hn Hs Hb -> w' kt' sub' F.
  pose proof (submit_fill_publish n Hq mask w sub) as P. cbv zeta in P.
  rewrite F in P. simpl in P. now apply P.
Qed.

(** C1.  On the publish path (kernel-visible head equal to the tail on entry,
    the kernel's head held fixed during the call), in a state the library's
    calls leave behind (the shadow indices hold no more than the capacity:
    [iocb_tail - iocb_head <= *kring_entries], which [io_uring_get_iocb]
    guards and every call keeps), a call that reaches the engine with [n]
    entries submitted has published all [n = iocb_tail - iocb_head > 0]
    queued descriptors: the new kernel-visible tail is the head plus [n]
    modulo 2^32, [n] entries ahead of the head, and never beyond the head
    plus the capacity. *)
Theorem submit_publish_tail (fd : Z) (w : world) (n : Z) (w1 : world) :
  sq_head_held ->
  sq_wf (w_sq w) ->
  sq_khead (w_sq w) = sq_ktail (w_sq w) ->
  sq_occupancy (w_sq w) <= sq_kring_entries (w_sq w) ->
  submit_prepare w = Submit n w1 ->
  let head := sq_khead (w_sq w) in
  let tail' := sq_ktail (w_sq (snd (io_uring_submit fd w))) in
  0 < n /\
  n = iocb_tail (w_sq w) - iocb_head (w_sq w) /\
  tail' = u32 (head + n) /\
  u32 (tail' - head) = n /\
  n <= sq_kring_entries (w_sq w) /\
  tail' <= head + sq_kring_entries (w_sq w).
Proof.
  intros Hq (Hkh & Hkt & _ & _ & Hh & Ht) Heq Hocc E. cbv zeta.
  assert (T : sq_ktail (w_sq (snd (io_uring_submit fd w))) = sq_ktail (w_sq w1)).
  { unfold io_uring_submit. rewrite E. reflexivity. }
  rewrite T. clear T.
  unfold submit_prepare in E.
  pose proof (Hq w) as Hkb.
  change (kc_sq_khead (engine_progress w))
    with (sq_khead (w_sq (read_barrier w))) in Hkb.
  assert (Tb : sq_ktail (w_sq (read_barrier w)) = sq_ktail (w_sq w))
    by reflexivity.
  assert (Hb : iocb_head (w_sq (read_barrier w)) = iocb_head (w_sq w))
    by reflexivity.
  assert (Lb : iocb_tail (w_sq (read_barrier w)) = iocb_tail (w_sq w))
    by reflexivity.
  remember (read_barrier w) as wb eqn:Ewb.
  rewrite Hkb, Tb, Heq, Z.eqb_refl, Hb, Lb in E. simpl negb in E. cbv iota in E.
  destruct (iocb_head (w_sq w) =? iocb_tail (w_sq w)) eqn:Q; [discriminate|].
  destruct (submit_fill _ _ wb _ _ 0) as [[w' kt'] sub'] eqn:F.
  apply submit_fill_publish_from in F; try assumption;
    try (rewrite ?Hkb, ?Hb, ?Lb; unfold is_u32 in *; assumption || lia).
  2:{ rewrite Hkb, Z.add_0_r, u32_small, Heq; [reflexivity|].
      rewrite Heq. exact Hkt. }
  rewrite Hkb, Hb, Lb in F. destruct F as (F1 & F2 & _ & _).
  destruct (sub' =? 0) eqn:Z0; [discriminate|].
  apply Z.eqb_neq in Z0.
  assert (N : sq_ktail (w_sq w1) = kt' /\ n = sub').
  { destruct (sq_ktail (w_sq w') =? kt') eqn:K; simpl negb in E; cbv iota in E;
      injection E as <- <-; split; try reflexivity.
    apply Z.eqb_eq, K. }
  destruct N as [-> ->]. subst kt'.
  assert (S1 : sub' = iocb_tail (w_sq w) - iocb_head (w_sq w)) by lia.
  assert (S2 : 0 < sub') by lia.
  unfold is_u32 in *.
  assert (O : sq_occupancy (w_sq w) = sub').
  { unfold sq_occupancy. rewrite <- S1. apply u32_small. unfold is_u32. lia. }
  assert (D : u32 (u32 (sq_khead (w_sq w) + sub') - sq_khead (w_sq w)) = sub').
  { unfold u32. rewrite Zminus_mod_idemp_l.
    replace (sq_khead (w_sq w) + sub' - sq_khead (w_sq w)) with sub' by lia.
    apply Z.mod_small. lia. }
  assert (B : u32 (sq_khead (w_sq w) + sub') <= sq_khead (w_sq w) + sub').
  { unfold u32. apply Z.mod_le; [lia | apply U32_MOD_pos]. }
  repeat split; try assumption; lia.
Qed.

(** X4.  On the publish path every queued descriptor is published: with
    [iocb_head < iocb_tail] the call reaches the engine with
    [iocb_tail - iocb_head] entries submitted, the tail moved by as many and
    [iocb_head] moved up to [iocb_tail]. *)
Lemma submit_publishes_all (fd : Z) (w : world) :
  sq_head_held ->
  sq_wf (w_sq w) ->
  sq_khead (w_sq w) = sq_ktail (w_sq w) ->
  iocb_head (w_sq w) < iocb_tail (w_sq w) ->
  let n := iocb_tail (w_sq w) - iocb_head (w_sq w) in
  exists w1 : world,
    submit_prepare w = Submit n w1 /\
    io_uring_submit fd w = io_uring_enter fd n 0 IORING_ENTER_GETEVENTS w1 /\
    sq_ktail (w_sq w1) = u32 (sq_khead (w_sq w) + n) /\
    iocb_head (w_sq w1) = iocb_tail (w_sq w).
Proof.
  intros Hq (Hkh & Hkt & _ & _ & Hh & Ht) Heq Hlt. cbv zeta.
  assert (P : exists w1 : world,
    submit_prepare w = Submit (iocb_tail (w_sq w) - iocb_head (w_sq w)) w1 /\
    sq_ktail (w_sq w1) =
      u32 (sq_khead (w_sq w) + (iocb_tail (w_sq w) - iocb_head (w_sq w))) /\
    iocb_head (w_sq w1) = iocb_tail (w_sq w)).
  { unfold submit_prepare.
    pose proof (Hq w) as Hkb.
    change (kc_sq_khead (engine_progress w))
      with (sq_khead (w_sq (read_barrier w))) in Hkb.
    assert (Tb : sq_ktail (w_sq (read_barrier w)) = sq_ktail (w_sq w))
      by reflexivity.
    assert (Hb : iocb_head (w_sq (read_barrier w)) = iocb_head (w_sq w))
      by reflexivity.
    assert (Lb : iocb_tail (w_sq (read_barrier w)) = iocb_tail (w_sq w))
      by reflexivity.
    remember (read_barrier w) as wb eqn:Ewb.
    rewrite Hkb, Tb, Heq, Z.eqb_refl, Hb, Lb. simpl negb. cbv iota.
    destruct (iocb_head (w_sq w) =? iocb_tail (w_sq w)) eqn:Q;
      [apply Z.eqb_eq in Q; lia|].
    destruct (submit_fill _ _ wb _ _ 0) as [[w' kt'] sub'] eqn:F.
    apply submit_fill_publish_from in F; try assumption;
      try (rewrite ?Hkb, ?Hb, ?Lb; unfold is_u32 in *; assumption || lia).
    2:{ rewrite Hkb, Z.add_0_r, u32_small, Heq; [reflexivity|].
        rewrite Heq. exact Hkt. }
    rewrite Hkb, Hb, Lb in F. destruct F as (F1 & F2 & F3 & _).
    assert (S1 : sub' = iocb_tail (w_sq w) - iocb_head (w_sq w)) by lia.
    assert (F4 : iocb_head (w_sq w') = iocb_tail (w_sq w)) by lia.
    destruct (sub' =? 0) eqn:Z0; [apply Z.eqb_eq in Z0; lia|].
    rewrite <- S1. rewrite Heq in F2. subst kt'.
    destruct (sq_ktail (w_sq w') =? u32 (sq_ktail (w_sq w) + sub')) eqn:K;
      simpl negb; cbv iota; eexists; repeat split; try exact F4.
    apply Z.eqb_eq, K. }
  destruct P as (w1 & P1 & P2 & P3). exists w1.
  unfold io_uring_submit. rewrite P1. repeat split; assumption.
Qed.

(** X5.  The loop compares the shadow indices with [<]: once [iocb_tail] has
    wrapped past 2^32 and [iocb_head] has not, the queued descriptors are not
    walked and the call returns 0 without an engine call. *)
Lemma submit_wrapped_shadow_returns_zero (fd : Z) (w : world) :
  sq_khead (w_sq (read_barrier w)) = sq_ktail (w_sq (read_barrier w)) ->
  iocb_tail (w_sq w) < iocb_head (w_sq w) ->
  io_uring_submit fd w = (0, read_barrier w).
Proof.
  intros Hk Hw. unfold io_uring_submit, submit_prepare.
  rewrite Hk, Z.eqb_refl. simpl negb. cbv iota.
  change (iocb_head (w_sq (read_barrier w))) with (iocb_head (w_sq w)).
  change (iocb_tail (w_sq (read_barrier w))) with (iocb_tail (w_sq w)).
  destruct (iocb_head (w_sq w) =? iocb_tail (w_sq w)) eqn:Q;
    [reflexivity|].
  replace (Z.to_nat (iocb_tail (w_sq w) - iocb_head (w_sq w))) with 0%nat
    by lia.
  reflexivity.
Qed.

(** ** [io_uring_get_completion] *)

Lemma completion_wait_step (n : nat) (fd head mask : Z) (w : world) :
  completion_wait (S n) fd head mask w =
  if negb (head =? cq_ktail (w_cq (read_barrier w))) then
    Some (Break (Some (Z.land head mask)) (read_barrier w))
  else
    let r := io_uring_enter fd 0 1 IORING_ENTER_GETEVENTS (read_barrier w) in
    if fst r <? 0 then Some (ReturnErr (- w_errno (snd r)) (snd r))
    else completion_wait n fd head mask (snd r).
Proof. reflexivity. Qed.

(** C3.  When a completion is visible (the local head differs from the
    kernel's tail as seen after the read barrier), [io_uring_get_completion]
    returns 0 without a system call, stores the reference to the record at
    [head & *kring_mask] (never [NULL]) through [ev_ptr], and stores
    [head + 1] to the consumer index, followed by a write barrier. *)
Theorem get_completion_visible (n : nat) (fd : Z) (w : world) (ev_ptr : ref) :
  cq_khead (w_cq w) <> cq_ktail (w_cq (read_barrier w)) ->
  let head := cq_khead (w_cq w) in
  exists w' : world,
    io_uring_get_completion (S n) fd w ev_ptr =
      Some (0, w', Some (Z.land head (cq_kring_mask (w_cq w)))) /\
    cq_khead (w_cq w') = u32 (head + 1) /\
    w_trace w' =
      EvWriteBarrier :: EvStore CqHead (u32 (head + 1)) :: EvReadBarrier
      :: w_trace w.
Proof.
  intros V. cbv zeta.
  exists (write_barrier
            (store_cq_khead (u32 (cq_khead (w_cq w) + 1)) (read_barrier w))).
  unfold io_uring_get_completion. rewrite completion_wait_step.
  apply Z.eqb_neq in V. rewrite V. repeat split.
Qed.

(** Whatever the number of turns, the loop stores nothing: the cells of the
    library are as before, and an error exit is the turn whose system call
    [io_uring_enter(fd, 0, 1, IORING_ENTER_GETEVENTS)] returned a negative
    result [ret], with [-errno] as the value to return. *)
Lemma completion_wait_exit (n : nat) :
  forall (fd head mask : Z) (w : world) (x : wait_exit),
  completion_wait n fd head mask w = Some x ->
  match x with
  | Break ev w' =>
      ev = Some (Z.land head mask) /\ library_cells w' = library_cells w /\
      head <> cq_ktail (w_cq w')
  | ReturnErr r w' =>
      r = - w_errno w' /\ library_cells w' = library_cells w /\
      exists (ret : Z) (tr : list event),
        ret < 0 /\
        w_trace w' =
          EvSyscall NR_sys_io_uring_enter [fd; 0; 1; IORING_ENTER_GETEVENTS] ret
          :: tr
  end.
Proof.
  induction n as [|n IH]; intros fd head mask w x E; [discriminate|].
  rewrite completion_wait_step in E.
  destruct (negb (head =? cq_ktail (w_cq (read_barrier w)))) eqn:V.
  - injection E as <-. repeat split.
    apply negb_true_iff, Z.eqb_neq in V. exact V.
  - cbv zeta in E.
    destruct (fst (io_uring_enter fd 0 1 IORING_ENTER_GETEVENTS (read_barrier w))
              <? 0) eqn:R.
    + injection E as <-. repeat split.
      apply Z.ltb_lt in R. eexists. eexists. split; [exact R|reflexivity].
    + apply IH in E. destruct x as [ev w'|r w'].
      * destruct E as (E1 & E2 & E3). repeat split; assumption.
      * destruct E as (E1 & E2 & E3). repeat split; assumption.
Qed.

Lemma after_waits_library_cells (k : nat) :
  forall (fd : Z) (w : world),
  library_cells (after_waits k fd w) = library_cells w.
Proof.
  induction k as [|k IH]; intros fd w; [reflexivity|].
  simpl after_waits. now rewrite IH.
Qed.

(** Turns that find nothing and whose engine call succeeds are turns of the
    loop. *)
Lemma completion_wait_waited (k : nat) :
  forall (n : nat) (fd head mask : Z) (w : world),
  waited k fd head w ->
  completion_wait (k + n) fd head mask w =
  completion_wait n fd head mask (after_waits k fd w).
Proof.
  induction k as [|k IH]; intros n fd head mask w H; [reflexivity|].
  simpl Nat.add. rewrite completion_wait_step.
  destruct (H 0%nat) as [V R]; [lia|]. simpl after_waits in V, R.
  rewrite <- V, Z.eqb_refl. simpl negb. cbv iota zeta.
  fold (wait_result fd w). fold (wait_turn fd w).
  apply Z.ltb_ge in R. rewrite R.
  simpl after_waits. apply IH.
  intros j Hj. apply (H (S j)). lia.
Qed.

(** X2.  A successful call, after any number [k] of turns of waiting: it
    returns 0 and the record at [head & *kring_mask], and its one store is
    [head + 1] to the consumer index, before a write barrier. *)
Lemma get_completion_after_waits
  (k n : nat) (fd : Z) (w : world) (ev_ptr : ref) :
  let head := cq_khead (w_cq w) in
  let wk := read_barrier (after_waits k fd w) in
  waited k fd head w ->
  head <> cq_ktail (w_cq wk) ->
  io_uring_get_completion (k + S n) fd w ev_ptr =
    Some (0,
          write_barrier (store_cq_khead (u32 (head + 1)) wk),
          Some (Z.land head (cq_kring_mask (w_cq w)))).
Proof.
  cbv zeta. intros W V.
  unfold io_uring_get_completion.
  rewrite completion_wait_waited by assumption.
  rewrite completion_wait_step.
  apply Z.eqb_neq in V. rewrite V. reflexivity.
Qed.

(** C6.  When the engine call of [io_uring_get_completion] fails, at the
    first turn of the loop or after [k] turns of waiting, the function returns
    at once with [-errno], [errno] being what the failed call left; it has
    stored nothing: the consumer index [*cq->khead] and [*ev_ptr] are as
    before the call. *)
Theorem get_completion_engine_failure
  (k n : nat) (fd : Z) (w : world) (ev_ptr : ref) :
  let head := cq_khead (w_cq w) in
  let wk := after_waits k fd w in
  waited k fd head w ->
  head = cq_ktail (w_cq (read_barrier wk)) ->
  wait_result fd wk < 0 ->
  io_uring_get_completion (k + S n) fd w ev_ptr =
    Some (- w_errno (wait_turn fd wk), wait_turn fd wk, ev_ptr) /\
  cq_khead (w_cq (wait_turn fd wk)) = head /\
  library_cells (wait_turn fd wk) = library_cells w /\
  w_trace (wait_turn fd wk) =
    EvSyscall NR_sys_io_uring_enter [fd; 0; 1; IORING_ENTER_GETEVENTS]
              (wait_result fd wk)
    :: EvReadBarrier :: w_trace wk.
Proof.
  cbv zeta. intros W V R.
  assert (L : library_cells (wait_turn fd (after_waits k fd w))
              = library_cells w).
  { rewrite <- (after_waits_library_cells k fd w). reflexivity. }
  split; [|split; [|split]].
  - unfold io_uring_get_completion.
    rewrite completion_wait_waited by assumption.
    rewrite completion_wait_step.
    rewrite <- V, Z.eqb_refl. simpl negb. cbv iota zeta.
    fold (wait_result fd (after_waits k fd w)).
    fold (wait_turn fd (after_waits k fd w)).
    apply Z.ltb_lt in R. rewrite R. reflexivity.
  - unfold library_cells in L. congruence.
  - exact L.
  - reflexivity.
Qed.

(** * Beyond the single call: how the operations compose *)

(** ** The slots of a ring *)

(** The slot the [i]-th acquisition from [sq] hands out, and the slots of
    the first [n]. *)
Definition slot_at (sq : io_uring_sq) (i : nat) : Z :=
  Z.land (u32 (iocb_tail sq + Z.of_nat i)) (sq_kring_mask sq).

Definition slots (sq : io_uring_sq) (n : nat) : list ref :=
  map (fun i => Some (slot_at sq i)) (seq 0 n).

(** [n] calls of [io_uring_get_iocb] in a row: the pointers returned, in
    order, and the descriptor after the last call. *)
Fixpoint get_iocbs (n : nat) (sq : io_uring_sq) : list ref * io_uring_sq :=
  match n with
  | O => ([], sq)
  | S n' =>
    let '(iocb, sq) := io_uring_get_iocb sq in
    let '(rest, sq) := get_iocbs n' sq in
    (iocb :: rest, sq)
  end.

Lemma land_mask (x k : Z) : 0 <= k -> Z.land x (2 ^ k - 1) = x mod 2 ^ k.
Proof.
  intros Hk. rewrite <- Z.land_ones by assumption.
  f_equal. rewrite Z.ones_equiv. lia.
Qed.

Lemma u32_mod_pow2 (x k : Z) : 0 <= k <= 32 -> u32 x mod 2 ^ k = x mod 2 ^ k.
Proof.
  intros Hk. unfold u32, U32_MOD.
  apply Z.mod_mod_divide.
  exists (2 ^ (32 - k)). rewrite <- Z.pow_add_r by lia. f_equal. lia.
Qed.

(** Within one lap of a ring of [e] entries, positions do not collide. *)
Lemma mod_window_inj (t e i j : Z) :
  0 <= i < e -> 0 <= j < e -> (t + i) mod e = (t + j) mod e -> i = j.
Proof.
  intros Hi Hj E.
  pose proof (Z.div_mod (t + i) e) as Di.
  pose proof (Z.div_mod (t + j) e) as Dj.
  rewrite E in Di.
  assert (He : e <> 0) by lia. specialize (Di He). specialize (Dj He).
  assert (D : i - j = e * ((t + i) / e - (t + j) / e)) by lia.
  generalize dependent ((t + i) / e - (t + j) / e). intros d D.
  assert (d = 0) by nia. subst d. lia.
Qed.

Lemma masked_index (k x : Z) (mask : Z) :
  0 <= k <= 32 -> mask = 2 ^ k - 1 -> Z.land (u32 x) mask = x mod 2 ^ k.
Proof.
  intros Hk ->. rewrite land_mask by lia. now apply u32_mod_pow2.
Qed.

(** X6.  On a ring of [2^k] entries the slot [io_uring_get_iocb] hands out is
    an index of the descriptor array: it lies in [0, *kring_entries). *)
Theorem get_iocb_slot_in_range (k : Z) (sq : io_uring_sq) (i : Z) :
  sq_pow2 k sq ->
  fst (io_uring_get_iocb sq) = Some i ->
  0 <= i < sq_kring_entries sq.
Proof.
  intros (Hk & He & Hm) E. rewrite sq_full_get_iocb in E.
  destruct (sq_full sq); [discriminate|]. injection E as <-.
  rewrite Hm, He, land_mask by lia.
  apply Z.mod_pos_bound, Z.pow_pos_nonneg; lia.
Qed.

(** ** Acquiring several slots *)

Lemma get_iocbs_step (n : nat) (sq : io_uring_sq) :
  get_iocbs (S n) sq =
  (fst (io_uring_get_iocb sq)
     :: fst (get_iocbs n (snd (io_uring_get_iocb sq))),
   snd (get_iocbs n (snd (io_uring_get_iocb sq)))).
Proof.
  simpl. destruct (io_uring_get_iocb sq) as [r sq1]. simpl.
  now destruct (get_iocbs n sq1).
Qed.

Lemma slots_step (sq : io_uring_sq) (n : nat) :
  slots sq (S n) =
  Some (Z.land (u32 (iocb_tail sq)) (sq_kring_mask sq))
  :: slots (set_iocb_tail (u32 (iocb_tail sq + 1)) sq) n.
Proof.
  unfold slots. simpl seq. simpl map. f_equal.
  - unfold slot_at. simpl Z.of_nat. now rewrite Z.add_0_r.
  - rewrite <- seq_shift, map_map. apply map_ext. intros i.
    unfold slot_at. simpl iocb_tail. simpl sq_kring_mask. do 2 f_equal.
    unfold u32. rewrite Zplus_mod_idemp_l. f_equal. lia.
Qed.

(** While there is room, every acquisition succeeds. *)
Lemma get_iocbs_room (n : nat) :
  forall sq : io_uring_sq,
  is_u32 (iocb_tail sq) -> is_u32 (sq_kring_entries sq) ->
  sq_occupancy sq + Z.of_nat n <= sq_kring_entries sq ->
  fst (get_iocbs n sq) = slots sq n /\
  iocb_head (snd (get_iocbs n sq)) = iocb_head sq /\
  iocb_tail (snd (get_iocbs n sq)) = u32 (iocb_tail sq + Z.of_nat n) /\
  sq_kring_entries (snd (get_iocbs n sq)) = sq_kring_entries sq /\
  sq_kring_mask (snd (get_iocbs n sq)) = sq_kring_mask sq /\
  sq_occupancy (snd (get_iocbs n sq)) = sq_occupancy sq + Z.of_nat n.
Proof.
  induction n as [|n IH]; intros sq Ht He Hroom.
  - simpl. rewrite !Z.add_0_r, u32_small by assumption. repeat split.
  - pose proof (u32_range (iocb_tail sq - iocb_head sq)) as Ho.
    fold (sq_occupancy sq) in Ho. unfold is_u32 in Ho, He.
    assert (O1 : u32 (sq_occupancy sq + 1) = sq_occupancy sq + 1).
    { apply u32_small. unfold is_u32. lia. }
    rewrite get_iocbs_step, sq_full_get_iocb, sq_full_occupancy, O1.
    destruct (sq_occupancy sq + 1 >? sq_kring_entries sq) eqn:F;
      [apply Z.gtb_gt in F; lia|].
    cbn [fst snd].
    set (sq1 := set_iocb_tail (u32 (iocb_tail sq + 1)) sq).
    assert (Oc : sq_occupancy sq1 = sq_occupancy sq + 1).
    { unfold sq_occupancy, sq1. simpl iocb_tail. simpl iocb_head.
      rewrite u32_next_minus. exact O1. }
    destruct (IH sq1) as (I1 & I2 & I3 & I4 & I5 & I6).
    { apply u32_range. }
    { exact He. }
    { rewrite Oc. simpl sq_kring_entries. lia. }
    rewrite I1, I2, I3, I4, I5, I6, Oc, slots_step.
    rewrite (u32_small (iocb_tail sq)) by assumption.
    repeat split; try lia.
    simpl iocb_tail. unfold u32. rewrite Zplus_mod_idemp_l. f_equal. lia.
Qed.

(** X7.  A descriptor with room for exactly [n] more: [n] acquisitions in a
    row succeed and hand out the slots [(iocb_tail + i) & mask] in order,
    [iocb_head] stays, the occupancy reaches the capacity, and the next
    acquisition returns [NULL] and changes nothing. *)
Theorem get_iocbs_until_full (n : nat) (sq : io_uring_sq) :
  is_u32 (iocb_tail sq) ->
  0 <= sq_kring_entries sq < U32_MOD - 1 ->
  sq_occupancy sq + Z.of_nat n = sq_kring_entries sq ->
  let sq' := snd (get_iocbs n sq) in
  fst (get_iocbs n sq) = slots sq n /\
  iocb_head sq' = iocb_head sq /\
  iocb_tail sq' = u32 (iocb_tail sq + Z.of_nat n) /\
  sq_occupancy sq' = sq_kring_entries sq /\
  io_uring_get_iocb sq' = (None, sq').
Proof.
  intros Ht He Hn. cbv zeta.
  destruct (get_iocbs_room n sq) as (I1 & I2 & I3 & I4 & I5 & I6);
    try assumption; try (unfold is_u32; lia).
  repeat split; try assumption; try lia.
  rewrite sq_full_get_iocb, sq_full_occupancy, I6, I4, Hn.
  rewrite u32_small by (unfold is_u32; lia).
  destruct (sq_kring_entries sq + 1 >? sq_kring_entries sq) eqn:F;
    [reflexivity|].
  rewrite Z.gtb_ltb, Z.ltb_ge in F. lia.
Qed.

(** On a ring of [2^k] entries the slots are the positions
    [(iocb_tail + i) mod 2^k]. *)
Lemma slot_at_pow2 (k : Z) (sq : io_uring_sq) (i : nat) :
  sq_pow2 k sq -> slot_at sq i = (iocb_tail sq + Z.of_nat i) mod 2 ^ k.
Proof.
  intros (Hk & _ & Hm). unfold slot_at. apply masked_index; [lia|exact Hm].
Qed.

Lemma slots_NoDup (k : Z) (sq : io_uring_sq) (n : nat) :
  sq_pow2 k sq -> Z.of_nat n <= 2 ^ k -> NoDup (slots sq n).
Proof.
  intros G Hn. unfold slots.
  apply NoDup_map_NoDup_ForallPairs; [|apply seq_NoDup].
  intros i j Hi Hj E. apply in_seq in Hi, Hj. injection E as E.
  rewrite !(slot_at_pow2 k) in E by assumption.
  apply mod_window_inj in E; lia.
Qed.

(** X8.  On a ring of [2^k] entries, the slots handed out by acquisitions in
    a row that fit the room left are pairwise distinct: no descriptor is
    handed out twice before a submit. *)
Theorem get_iocbs_distinct (k : Z) (n : nat) (sq : io_uring_sq) :
  sq_pow2 k sq ->
  is_u32 (iocb_tail sq) ->
  sq_occupancy sq + Z.of_nat n <= sq_kring_entries sq ->
  NoDup (fst (get_iocbs n sq)) /\
  forall r : ref, In r (fst (get_iocbs n sq)) ->
    exists i : Z, r = Some i /\ 0 <= i < sq_kring_entries sq.
Proof.
  intros G Ht Hroom. pose proof G as (Hk & He & Hm).
  assert (He32 : is_u32 (sq_kring_entries sq)).
  { rewrite He. unfold is_u32, U32_MOD. split; [apply Z.pow_nonneg; lia|].
    apply Z.pow_lt_mono_r; lia. }
  pose proof (u32_range (iocb_tail sq - iocb_head sq)) as Ho.
  fold (sq_occupancy sq) in Ho. unfold is_u32 in Ho.
  destruct (get_iocbs_room n sq Ht He32 Hroom) as (I1 & _).
  rewrite I1. split.
  - apply (slots_NoDup k); [exact G|]. rewrite <- He. lia.
  - intros r Hr. unfold slots in Hr. apply in_map_iff in Hr.
    destruct Hr as (i & <- & _). eexists. split; [reflexivity|].
    rewrite (slot_at_pow2 k), He by exact G.
    apply Z.mod_pos_bound, Z.pow_pos_nonneg; lia.
Qed.

(** ** What a publish writes into the indirection array *)

Lemma upd_same (a : Z -> Z) (i v : Z) : upd a i v i = v.
Proof. unfold upd. now rewrite Z.eqb_refl. Qed.

Lemma upd_other (a : Z -> Z) (i v j : Z) : j <> i -> upd a i v j = a j.
Proof. unfold upd. intros H. apply Z.eqb_neq in H. now rewrite H. Qed.

(** The loop on the publish path, on a ring of [2^k] entries with at most
    [2^k] descriptors queued: position [(ktail + i) mod 2^k] of the array
    receives the slot [(iocb_head + i) mod 2^k], and the other positions keep
    their content. *)
Lemma submit_fill_array (n : nat) :
  sq_head_held ->
  forall (k mask : Z) (w : world) (sub : Z),
  let h := iocb_head (w_sq w) in
  let t := iocb_tail (w_sq w) in
  let kh := sq_khead (w_sq w) in
  let kt := u32 (kh + sub) in
  0 <= k <= 32 -> mask = 2 ^ k - 1 ->
  is_u32 kh -> is_u32 h -> is_u32 t ->
  t - h <= Z.of_nat n -> t - h <= 2 ^ k ->
  0 <= sub -> sub + (t - h) < U32_MOD ->
  let a' := sq_array (w_sq (fst (fst (submit_fill n mask w kt kt sub)))) in
  (forall i : Z, 0 <= i < t - h ->
     a' ((kt + i) mod 2 ^ k) = (h + i) mod 2 ^ k) /\
  (forall x : Z, (forall i : Z, 0 <= i < t - h -> x <> (kt + i) mod 2 ^ k) ->
     a' x = sq_array (w_sq w) x).
Proof.
  intros Hq.
  induction n as [|n IH]; intros k mask w sub; cbv zeta;
    intros Hk Hm Hkh Hh Ht Hn He Hs Hb.
  - simpl in *. split; [intros i Hi; lia|reflexivity].
  - rewrite submit_fill_step.
    destruct (iocb_head (w_sq w) <? iocb_tail (w_sq w)) eqn:E.
    2:{ apply Z.ltb_ge in E. simpl. split; [intros i Hi; lia|reflexivity]. }
    apply Z.ltb_lt in E.
    assert (Hkb : sq_khead (w_sq (read_barrier w)) = sq_khead (w_sq w))
      by apply Hq.
    rewrite Hkb, u32_add_succ.
    destruct (u32 (sq_khead (w_sq w) + (sub + 1)) =? sq_khead (w_sq w)) eqn:B.
    { apply Z.eqb_eq in B. exfalso.
      revert B. apply u32_add_fixpoint; [assumption|lia]. }
    unfold is_u32 in Hh, Ht.
    rewrite (u32_small (sub + 1)) by (unfold is_u32; lia).
    rewrite (u32_small (iocb_head (w_sq w) + 1)) by (unfold is_u32; lia).
    rewrite Nat2Z.inj_succ in Hn.
    set (kt := u32 (sq_khead (w_sq w) + sub)).
    set (w1 := update_sq (set_iocb_head (iocb_head (w_sq w) + 1))
                 (store_sq_array (Z.land kt mask)
                    (Z.land (iocb_head (w_sq w)) mask) (read_barrier w))).
    specialize (IH k mask w1 (sub + 1)). cbv zeta in IH.
    change (iocb_head (w_sq w1)) with (iocb_head (w_sq w) + 1) in IH.
    change (iocb_tail (w_sq w1)) with (iocb_tail (w_sq w)) in IH.
    change (sq_khead (w_sq w1)) with (sq_khead (w_sq (read_barrier w))) in IH.
    rewrite Hkb in IH.
    destruct IH as [I1 I2]; try assumption; try (unfold is_u32; lia).
    assert (A1 : sq_array (w_sq w1)
                 = upd (sq_array (w_sq w)) (kt mod 2 ^ k)
                       (iocb_head (w_sq w) mod 2 ^ k)).
    { unfold w1. simpl. subst mask. rewrite !land_mask by lia. reflexivity. }
    assert (K1 : forall i : Z,
               (u32 (sq_khead (w_sq w) + (sub + 1)) + i) mod 2 ^ k
               = (kt + (1 + i)) mod 2 ^ k).
    { intros i. unfold kt.
      rewrite Zplus_mod, u32_mod_pow2 by lia.
      rewrite (Zplus_mod (u32 _)), u32_mod_pow2 by lia.
      rewrite <- !Zplus_mod. f_equal. lia. }
    split.
    + intros i Hi. destruct (Z.eq_dec i 0) as [->|Hi0].
      * rewrite !Z.add_0_r. rewrite I2.
        { rewrite A1. apply upd_same. }
        intros j Hj. rewrite K1. intros C.
        rewrite <- (Z.add_0_r kt) in C at 1.
        apply mod_window_inj in C; lia.
      * specialize (I1 (i - 1)). rewrite K1 in I1.
        replace (1 + (i - 1)) with i in I1 by lia.
        replace (iocb_head (w_sq w) + 1 + (i - 1))
          with (iocb_head (w_sq w) + i) in I1 by lia.
        apply I1. lia.
    + intros x Hx. rewrite I2.
      * rewrite A1. apply upd_other.
        specialize (Hx 0). rewrite Z.add_0_r in Hx. apply Hx. lia.
      * intros j Hj. rewrite K1. apply Hx. lia.
Qed.

Lemma submit_fill_mask (n : nat) :
  forall (mask : Z) (w : world) (kt ktn sub : Z),
  sq_kring_mask (w_sq (fst (fst (submit_fill n mask w kt ktn sub))))
  = sq_kring_mask (w_sq w).
Proof.
  induction n as [|n IH]; intros mask w kt ktn sub; [reflexivity|].
  rewrite submit_fill_step.
  destruct (_ <? _); [|reflexivity].
  destruct (_ =? _); [reflexivity|].
  rewrite IH. reflexivity.
Qed.

(** The publish path as a whole: what the world at the label [submit:] owes
    to the loop. *)
Lemma submit_prepare_publish (w : world) :
  sq_head_held ->
  sq_wf (w_sq w) ->
  sq_khead (w_sq w) = sq_ktail (w_sq w) ->
  iocb_head (w_sq w) < iocb_tail (w_sq w) ->
  let n := iocb_tail (w_sq w) - iocb_head (w_sq w) in
  let r := submit_fill (Z.to_nat n) (sq_kring_mask (w_sq w)) (read_barrier w)
                       (sq_ktail (w_sq w)) (sq_ktail (w_sq w)) 0 in
  exists w1 : world,
    submit_prepare w = Submit n w1 /\
    sq_array (w_sq w1) = sq_array (w_sq (fst (fst r))) /\
    sq_ktail (w_sq w1) = u32 (sq_khead (w_sq w) + n) /\
    sq_khead (w_sq w1) = sq_khead (w_sq w) /\
    iocb_head (w_sq w1) = iocb_tail (w_sq w) /\
    iocb_tail (w_sq w1) = iocb_tail (w_sq w) /\
    sq_kring_entries (w_sq w1) = sq_kring_entries (w_sq w) /\
    sq_kring_mask (w_sq w1) = sq_kring_mask (w_sq w).
Proof.
  intros Hq (Hkh & Hkt & _ & _ & Hh & Ht) Heq Hlt. cbv zeta.
  set (n := iocb_tail (w_sq w) - iocb_head (w_sq w)).
  set (mask := sq_kring_mask (w_sq w)).
  set (kt := sq_ktail (w_sq w)).
  assert (Hkb : sq_khead (w_sq (read_barrier w)) = sq_khead (w_sq w))
    by apply Hq.
  pose proof (submit_fill_frame (Z.to_nat n) mask (read_barrier w) kt kt 0)
    as Fr. cbv zeta in Fr.
  pose proof (submit_fill_mask (Z.to_nat n) mask (read_barrier w) kt kt 0)
    as Fm.
  destruct (submit_fill (Z.to_nat n) mask (read_barrier w) kt kt 0)
    as [[w' kt'] sub'] eqn:F.
  cbn [fst snd] in *.
  pose proof F as P.
  apply submit_fill_publish_from in P; try assumption.
  2:{ rewrite Hkb. exact Hkh. }
  2:{ change (iocb_tail (w_sq w) - iocb_head (w_sq w)
              <= Z.of_nat (Z.to_nat n)). subst n. lia. }
  2:{ lia. }
  2:{ change (0 + n < U32_MOD). unfold is_u32 in *. subst n. lia. }
  2:{ rewrite Hkb, Z.add_0_r, u32_small by assumption. subst kt.
      now rewrite Heq. }
  change (iocb_head (w_sq (read_barrier w))) with (iocb_head (w_sq w)) in P.
  change (iocb_tail (w_sq (read_barrier w))) with (iocb_tail (w_sq w)) in P.
  rewrite Hkb in P. fold n in P.
  destruct P as (P1 & P2 & P3 & P4).
  destruct Fr as (Fr1 & Fr2 & Fr3 & _).
  change (sq_ktail (w_sq (read_barrier w))) with kt in Fr1.
  change (iocb_tail (w_sq (read_barrier w))) with (iocb_tail (w_sq w)) in Fr2.
  change (sq_kring_entries (w_sq (read_barrier w)))
    with (sq_kring_entries (w_sq w)) in Fr3.
  change (sq_kring_mask (w_sq (read_barrier w))) with mask in Fm.
  assert (S1 : sub' = n) by lia.
  assert (S2 : iocb_head (w_sq w') = iocb_tail (w_sq w)) by lia.
  assert (C : (sq_khead (w_sq (read_barrier w))
               =? sq_ktail (w_sq (read_barrier w))) = true).
  { apply Z.eqb_eq. rewrite Hkb. exact Heq. }
  unfold submit_prepare. rewrite C. simpl negb. cbv iota.
  change (iocb_head (w_sq (read_barrier w))) with (iocb_head (w_sq w)).
  change (iocb_tail (w_sq (read_barrier w))) with (iocb_tail (w_sq w)).
  destruct (iocb_head (w_sq w) =? iocb_tail (w_sq w)) eqn:Q;
    [apply Z.eqb_eq in Q; lia|].
  change (sq_ktail (w_sq (read_barrier w))) with kt.
  fold n. fold mask. rewrite F.
  destruct (sub' =? 0) eqn:Z0; [apply Z.eqb_eq in Z0; subst n; lia|].
  rewrite S1. subst kt'. rewrite S1.
  destruct (sq_ktail (w_sq w') =? u32 (sq_khead (w_sq w) + n)) eqn:K;
    simpl negb; cbv iota; eexists; (split; [reflexivity|]);
    repeat split; try assumption.
  apply Z.eqb_eq, K.
Qed.

(** The indirection array after a submit on the publish path: the positions
    written, and the positions left alone. *)
Lemma submit_indirection (k fd : Z) (w : world) :
  sq_head_held ->
  sq_wf (w_sq w) ->
  sq_pow2 k (w_sq w) ->
  sq_khead (w_sq w) = sq_ktail (w_sq w) ->
  iocb_head (w_sq w) < iocb_tail (w_sq w) ->
  iocb_tail (w_sq w) - iocb_head (w_sq w) <= sq_kring_entries (w_sq w) ->
  let a' := sq_array (w_sq (snd (io_uring_submit fd w))) in
  let n := iocb_tail (w_sq w) - iocb_head (w_sq w) in
  (forall i : Z, 0 <= i < n ->
     a' ((sq_ktail (w_sq w) + i) mod 2 ^ k)
     = (iocb_head (w_sq w) + i) mod 2 ^ k) /\
  (forall x : Z,
     (forall i : Z, 0 <= i < n -> x <> (sq_ktail (w_sq w) + i) mod 2 ^ k) ->
     a' x = sq_array (w_sq w) x).
Proof.
  intros Hq Hwf (Hk & He & Hm) Heq Hlt Hcap. cbv zeta.
  destruct (submit_prepare_publish w Hq Hwf Heq Hlt)
    as (w1 & P & A & _).
  cbv zeta in A.
  unfold io_uring_submit. rewrite P.
  change (sq_array (w_sq (snd (io_uring_enter fd
            (iocb_tail (w_sq w) - iocb_head (w_sq w)) 0
            IORING_ENTER_GETEVENTS w1))))
    with (sq_array (w_sq w1)).
  rewrite A.
  destruct Hwf as (Hkh & Hkt & _ & _ & Hh & Ht).
  assert (Hkb : sq_khead (w_sq (read_barrier w)) = sq_khead (w_sq w))
    by apply Hq.
  pose proof (submit_fill_array
                (Z.to_nat (iocb_tail (w_sq w) - iocb_head (w_sq w))) Hq
                k (sq_kring_mask (w_sq w)) (read_barrier w) 0) as L.
  cbv zeta in L.
  change (iocb_head (w_sq (read_barrier w))) with (iocb_head (w_sq w)) in L.
  change (iocb_tail (w_sq (read_barrier w))) with (iocb_tail (w_sq w)) in L.
  change (sq_array (w_sq (read_barrier w))) with (sq_array (w_sq w)) in L.
  rewrite Hkb, Z.add_0_r, (u32_small (sq_khead (w_sq w))), Heq in L
    by assumption.
  apply L; try assumption; try lia; try (unfold is_u32 in *; lia).
Qed.

(** X9.  On the publish path, on a ring of [2^k] entries holding no more
    queued descriptors than its capacity, [io_uring_submit] leaves in the
    indirection array, at the ring position [(ktail + i) & mask] of the
    [i]-th published entry, the slot [(iocb_head + i) & mask] of the [i]-th
    queued descriptor: the entries are published in the order of their
    acquisition and none is overwritten. *)
Theorem submit_publishes_indirection (k fd : Z) (w : world) :
  sq_head_held ->
  sq_wf (w_sq w) ->
  sq_pow2 k (w_sq w) ->
  sq_khead (w_sq w) = sq_ktail (w_sq w) ->
  iocb_head (w_sq w) < iocb_tail (w_sq w) ->
  iocb_tail (w_sq w) - iocb_head (w_sq w) <= sq_kring_entries (w_sq w) ->
  forall i : Z, 0 <= i < iocb_tail (w_sq w) - iocb_head (w_sq w) ->
  sq_array (w_sq (snd (io_uring_submit fd w)))
           (Z.land (u32 (sq_ktail (w_sq w) + i)) (sq_kring_mask (w_sq w)))
  = Z.land (u32 (iocb_head (w_sq w) + i)) (sq_kring_mask (w_sq w)).
Proof.
  intros Hq Hwf Hp Heq Hlt Hcap i Hi.
  pose proof Hp as (Hk & _ & Hm).
  rewrite !(masked_index k) by (assumption || lia).
  now apply (submit_indirection k fd w).
Qed.

(** [n] calls of [io_uring_get_iocb] on the world's submission descriptor:
    the pointers returned and the world after the last call. *)
Definition acquire (n : nat) (w : world) : list ref * world :=
  (fst (get_iocbs n (w_sq w)),
   update_sq (fun _ => snd (get_iocbs n (w_sq w))) w).

(** Acquisitions move [iocb_tail] and nothing else. *)
Lemma get_iocbs_frame (n : nat) :
  forall sq : io_uring_sq,
  snd (get_iocbs n sq) = set_iocb_tail (iocb_tail (snd (get_iocbs n sq))) sq.
Proof.
  induction n as [|n IH]; intros sq.
  - now destruct sq.
  - rewrite get_iocbs_step. cbn [snd].
    rewrite IH at 1. unfold io_uring_get_iocb. cbv zeta.
    destruct (_ >? _); cbn [snd]; [|reflexivity].
    generalize (iocb_tail (snd (get_iocbs n sq))). intros t. reflexivity.
Qed.

(** X10.  A submit whose engine call consumed nothing (the kernel's head is
    where it was) leaves the published entries pending.  Whatever the
    program then acquires, [n] descriptors that fit the ring, the next
    [io_uring_submit] takes the pending path: it asks the engine for
    [*kring_entries] entries and stores nothing, so the kernel-visible tail
    stays where the first submit put it and the [n] descriptors acquired in
    the meantime are still queued, not published. *)
Theorem submit_again_after_unconsumed (fd : Z) (n : nat) (w : world) :
  sq_head_held ->
  sq_wf (w_sq w) ->
  sq_khead (w_sq w) = sq_ktail (w_sq w) ->
  iocb_head (w_sq w) < iocb_tail (w_sq w) ->
  Z.of_nat n <= sq_kring_entries (w_sq w) ->
  let w2 := snd (io_uring_submit fd w) in
  sq_khead (w_sq w2) = sq_khead (w_sq w) ->
  let w3 := snd (acquire n w2) in
  let w4 := snd (io_uring_submit fd w3) in
  fst (acquire n w2) = slots (w_sq w2) n /\
  io_uring_submit fd w3 =
    io_uring_enter fd (sq_kring_entries (w_sq w)) 0 IORING_ENTER_GETEVENTS
                   (read_barrier w3) /\
  library_cells w4 = library_cells w3 /\
  sq_ktail (w_sq w4) =
    u32 (sq_khead (w_sq w) + (iocb_tail (w_sq w) - iocb_head (w_sq w))) /\
  sq_occupancy (w_sq w4) = Z.of_nat n.
Proof.
  intros Hq Hwf Heq Hlt Hn. cbv zeta.
  destruct (submit_prepare_publish w Hq Hwf Heq Hlt)
    as (w1 & P & _ & T & _ & Ih & It & En & _).
  destruct Hwf as (Hkh & _ & _ & Hen & Hh & Ht).
  assert (E0 : snd (io_uring_submit fd w) =
               snd (io_uring_enter fd
                      (iocb_tail (w_sq w) - iocb_head (w_sq w)) 0
                      IORING_ENTER_GETEVENTS w1)).
  { unfold io_uring_submit. now rewrite P. }
  rewrite E0. clear E0.
  set (w2 := snd (io_uring_enter fd (iocb_tail (w_sq w) - iocb_head (w_sq w))
                                 0 IORING_ENTER_GETEVENTS w1)).
  intros Hc.
  assert (T2 : sq_ktail (w_sq w2) = sq_ktail (w_sq w1)) by reflexivity.
  assert (E2 : sq_kring_entries (w_sq w2) = sq_kring_entries (w_sq w1))
    by reflexivity.
  assert (H2 : iocb_head (w_sq w2) = iocb_tail (w_sq w))
    by (rewrite <- Ih; reflexivity).
  assert (I2 : iocb_tail (w_sq w2) = iocb_tail (w_sq w))
    by (rewrite <- It; reflexivity).
  assert (O2 : sq_occupancy (w_sq w2) = 0).
  { unfold sq_occupancy. rewrite H2, I2, Z.sub_diag. reflexivity. }
  destruct (get_iocbs_room n (w_sq w2)) as (R1 & _ & _ & _ & _ & R6).
  { rewrite I2. exact Ht. }
  { rewrite E2, En. exact Hen. }
  { rewrite O2, E2, En. lia. }
  unfold acquire. cbn [fst snd].
  set (w3 := update_sq (fun _ => snd (get_iocbs n (w_sq w2))) w2).
  assert (S3 : w_sq w3 =
               set_iocb_tail (iocb_tail (snd (get_iocbs n (w_sq w2))))
                             (w_sq w2)).
  { unfold w3. cbn [update_sq w_sq]. apply get_iocbs_frame. }
  assert (T3 : sq_ktail (w_sq w3) = sq_ktail (w_sq w2))
    by now rewrite S3.
  assert (K3 : sq_khead (w_sq w3) = sq_khead (w_sq w2))
    by now rewrite S3.
  assert (E3 : sq_kring_entries (w_sq w3) = sq_kring_entries (w_sq w2))
    by now rewrite S3.
  assert (N : (sq_khead (w_sq (read_barrier w3))
               =? sq_ktail (w_sq (read_barrier w3))) = false).
  { apply Z.eqb_neq.
    change (sq_ktail (w_sq (read_barrier w3))) with (sq_ktail (w_sq w3)).
    rewrite (Hq w3 : sq_khead (w_sq (read_barrier w3)) = sq_khead (w_sq w3)).
    rewrite K3, T3, Hc, T2, T. intros C. symmetry in C. revert C.
    apply u32_add_fixpoint; [assumption|]. unfold is_u32 in *. lia. }
  assert (S2 : submit_prepare w3 =
               Submit (sq_kring_entries (w_sq w)) (read_barrier w3)).
  { unfold submit_prepare. rewrite N. simpl negb. cbv iota.
    change (sq_kring_entries (w_sq (read_barrier w3)))
      with (sq_kring_entries (w_sq w3)).
    now rewrite E3, E2, En. }
  split; [exact R1|].
  unfold io_uring_submit. rewrite S2.
  split; [reflexivity|]. split; [reflexivity|].
  split.
  - change (sq_ktail (w_sq (snd (io_uring_enter fd (sq_kring_entries (w_sq w))
              0 IORING_ENTER_GETEVENTS (read_barrier w3)))))
      with (sq_ktail (w_sq w3)).
    now rewrite T3, T2, T.
  - change (sq_occupancy (w_sq (snd (io_uring_enter fd
              (sq_kring_entries (w_sq w)) 0 IORING_ENTER_GETEVENTS
              (read_barrier w3)))))
      with (sq_occupancy (w_sq w3)).
    unfold w3. cbn [update_sq w_sq]. rewrite R6, O2. lia.
Qed.

(** ** Consuming several completions *)

(** [j] calls of [io_uring_get_completion] in a row, each allowed [n] turns
    of waiting: the value returned and the reference stored through [ev_ptr]
    by each call, in order, and the world after the last ([None]: a call was
    still waiting after [n] turns). *)
Fixpoint get_completions (j n : nat) (fd : Z) (w : world)
  : option (list (Z * ref) * world) :=
  match j with
  | O => Some ([], w)
  | S j' =>
    match io_uring_get_completion n fd w None with
    | None => None
    | Some (r, w, ev) =>
      match get_completions j' n fd w with
      | None => None
      | Some (rest, w) => Some ((r, ev) :: rest, w)
      end
    end
  end.

(** The kernel posts no further completion: a read barrier shows the
    library the CQ tail it already knew. *)
Definition cq_tail_held : Prop :=
  forall w : world, kc_cq_ktail (engine_progress w) = cq_ktail (w_cq w).

(** The completions posted and not yet consumed, [ktail - khead] in
    [unsigned] arithmetic. *)
Definition cq_ready (cq : io_uring_cq) : Z := u32 (cq_ktail cq - cq_khead cq).

(** The system calls of a trace. *)
Definition syscalls (tr : list event) : list event :=
  filter (fun e => match e with EvSyscall _ _ _ => true | _ => false end) tr.

(** The record at which the [i]-th of several calls in a row finds its
    completion. *)
Definition record_at (cq : io_uring_cq) (i : nat) : Z :=
  Z.land (u32 (cq_khead cq + Z.of_nat i)) (cq_kring_mask cq).

Lemma u32_minus_next (t h : Z) :
  1 <= u32 (t - h) -> u32 (t - u32 (h + 1)) = u32 (t - h) - 1.
Proof.
  intros H. pose proof (u32_range (t - h)) as R. unfold is_u32 in R.
  unfold u32 in *. rewrite Zminus_mod_idemp_r.
  replace (t - (h + 1)) with (t - h - 1) by lia.
  rewrite <- Zminus_mod_idemp_l. apply Z.mod_small. lia.
Qed.

Lemma ready_not_empty (cq : io_uring_cq) :
  is_u32 (cq_khead cq) -> is_u32 (cq_ktail cq) ->
  (1 <= cq_ready cq <-> cq_khead cq <> cq_ktail cq).
Proof.
  unfold cq_ready, is_u32. intros Hh Ht. split.
  - intros H E. rewrite E, Z.sub_diag in H. change (u32 0) with 0 in H. lia.
  - intros N. pose proof (u32_range (cq_ktail cq - cq_khead cq)) as R.
    unfold is_u32 in R.
    destruct (Z.eq_dec (u32 (cq_ktail cq - cq_khead cq)) 0) as [Z0|]; [|lia].
    exfalso. apply N. unfold u32 in Z0.
    apply Z.mod_divide in Z0; [|discriminate].
    destruct Z0 as [q Hq]. unfold U32_MOD in *. nia.
Qed.

Lemma records_step (cq : io_uring_cq) (j : nat) :
  is_u32 (cq_khead cq) ->
  map (fun i => (0, Some (record_at cq i))) (seq 0 (S j)) =
  (0, Some (Z.land (cq_khead cq) (cq_kring_mask cq)))
  :: map (fun i => (0, Some (record_at (set_cq_khead (u32 (cq_khead cq + 1)) cq)
                                        i)))
         (seq 0 j).
Proof.
  intros Hh. simpl seq. simpl map. f_equal.
  - unfold record_at. simpl Z.of_nat.
    now rewrite Z.add_0_r, u32_small by assumption.
  - rewrite <- seq_shift, map_map. apply map_ext. intros i.
    unfold record_at. simpl cq_khead. simpl cq_kring_mask.
    do 3 f_equal. unfold u32. rewrite Zplus_mod_idemp_l. f_equal. lia.
Qed.

(** X11.  With [j] completions posted (and the kernel posting no more),
    [j] calls of [io_uring_get_completion] in a row each return 0 at their
    first turn; they hand out the records at [(khead + i) & mask] for
    [i = 0 .. j-1], in ring order, move the consumer index by [j], and make
    no system call. *)
Theorem get_completions_drain (j n : nat) :
  cq_tail_held ->
  forall (fd : Z) (w : world),
  is_u32 (cq_khead (w_cq w)) -> is_u32 (cq_ktail (w_cq w)) ->
  Z.of_nat j <= cq_ready (w_cq w) ->
  exists w' : world,
    get_completions j (S n) fd w =
      Some (map (fun i => (0, Some (record_at (w_cq w) i))) (seq 0 j), w') /\
    cq_khead (w_cq w') = u32 (cq_khead (w_cq w) + Z.of_nat j) /\
    cq_ready (w_cq w') = cq_ready (w_cq w) - Z.of_nat j /\
    syscalls (w_trace w') = syscalls (w_trace w).
Proof.
  intros Hq. induction j as [|j IH]; intros fd w Hh Ht Hr.
  - exists w. simpl. rewrite !Z.add_0_r, Z.sub_0_r, u32_small by assumption.
    repeat split.
  - rewrite Nat2Z.inj_succ in Hr.
    assert (V : cq_khead (w_cq w) <> cq_ktail (w_cq (read_barrier w))).
    { rewrite (Hq w : cq_ktail (w_cq (read_barrier w)) = cq_ktail (w_cq w)).
      apply ready_not_empty; try assumption. lia. }
    set (w1 := write_barrier
                 (store_cq_khead (u32 (cq_khead (w_cq w) + 1))
                                 (read_barrier w))).
    assert (G : io_uring_get_completion (S n) fd w None =
                Some (0, w1,
                      Some (Z.land (cq_khead (w_cq w))
                                   (cq_kring_mask (w_cq w))))).
    { unfold io_uring_get_completion. rewrite completion_wait_step.
      apply Z.eqb_neq in V. rewrite V. reflexivity. }
    assert (T1 : cq_ktail (w_cq w1) = cq_ktail (w_cq w)) by apply Hq.
    assert (R1 : cq_ready (w_cq w1) = cq_ready (w_cq w) - 1).
    { unfold cq_ready. rewrite T1. apply u32_minus_next.
      fold (cq_ready (w_cq w)). lia. }
    destruct (IH fd w1) as (w' & I1 & I2 & I3 & I4).
    { apply u32_range. }
    { rewrite T1. exact Ht. }
    { rewrite R1. lia. }
    exists w'. simpl get_completions.
    rewrite G, I1, I2, I3, I4, R1, records_step by assumption.
    repeat split; try lia.
    simpl cq_khead. unfold u32. rewrite Zplus_mod_idemp_l. f_equal. lia.
Qed.

(** ** An invariant of the shadow indices *)

(** The shadow indices are values of type [unsigned] and no more descriptors
    are queued than the ring has entries. *)
Definition shadow_inv (sq : io_uring_sq) : Prop :=
  is_u32 (iocb_head sq) /\ is_u32 (iocb_tail sq) /\
  sq_occupancy sq <= sq_kring_entries sq.

(** A call of the library. *)
Inductive api_call : Type :=
| CallGetIocb
| CallSubmit (fd : Z)
| CallGetCompletion (n : nat) (fd : Z).

(** The world after a call ([None]: [io_uring_get_completion] was still
    waiting after its [n] turns). *)
Definition api_step (c : api_call) (w : world) : option world :=
  match c with
  | CallGetIocb => Some (update_sq (fun sq => snd (io_uring_get_iocb sq)) w)
  | CallSubmit fd => Some (snd (io_uring_submit fd w))
  | CallGetCompletion n fd =>
      match io_uring_get_completion n fd w None with
      | Some (_, w, _) => Some w
      | None => None
      end
  end.

Fixpoint api_run (cs : list api_call) (w : world) : option world :=
  match cs with
  | [] => Some w
  | c :: cs =>
      match api_step c w with
      | Some w => api_run cs w
      | None => None
      end
  end.

(** The world at which the code before the label [submit:] ends. *)
Definition prep_world (p : submit_prep) : world :=
  match p with
  | Return0 w => w
  | Submit _ w => w
  end.

(** The three fields the invariant reads. *)
Definition shadow (w : world) : Z * Z * Z :=
  (iocb_head (w_sq w), iocb_tail (w_sq w), sq_kring_entries (w_sq w)).

Lemma shadow_inv_eq (w w' : world) :
  shadow w' = shadow w -> shadow_inv (w_sq w) -> shadow_inv (w_sq w').
Proof.
  unfold shadow, shadow_inv, sq_occupancy. intros [= -> -> ->]. trivial.
Qed.

Lemma get_iocb_shadow_inv (sq : io_uring_sq) :
  shadow_inv sq -> shadow_inv (snd (io_uring_get_iocb sq)).
Proof.
  intros (Hh & Ht & Ho). rewrite sq_full_get_iocb.
  unfold sq_full. destruct (_ >? _) eqn:F; simpl snd.
  - exact (conj Hh (conj Ht Ho)).
  - unfold shadow_inv, sq_occupancy. simpl.
    rewrite Z.gtb_ltb, Z.ltb_ge in F.
    split; [exact Hh|]. split; [apply u32_range|exact F].
Qed.

(** Whatever the kernel does, the loop of [io_uring_submit] moves
    [iocb_head] forward and never past [iocb_tail]. *)
Lemma submit_fill_head (n : nat) :
  forall (mask : Z) (w : world) (kt ktn sub : Z),
  is_u32 (iocb_head (w_sq w)) -> is_u32 (iocb_tail (w_sq w)) ->
  let w' := fst (fst (submit_fill n mask w kt ktn sub)) in
  iocb_head (w_sq w) <= iocb_head (w_sq w')
  <= Z.max (iocb_head (w_sq w)) (iocb_tail (w_sq w)).
Proof.
  induction n as [|n IH]; intros mask w kt ktn sub Hh Ht; cbv zeta.
  - simpl. lia.
  - rewrite submit_fill_step.
    destruct (iocb_head (w_sq w) <? iocb_tail (w_sq w)) eqn:E;
      [|simpl; lia].
    apply Z.ltb_lt in E.
    destruct (_ =? _); [simpl; lia|].
    unfold is_u32 in Hh, Ht.
    rewrite (u32_small (iocb_head (w_sq w) + 1)) by (unfold is_u32; lia).
    match goal with |- context [submit_fill n mask ?x ?a ?b ?c] =>
      set (w1 := x); specialize (IH mask w1 a b c)
    end.
    cbv zeta in IH.
    change (iocb_head (w_sq w1)) with (iocb_head (w_sq w) + 1) in IH.
    change (iocb_tail (w_sq w1)) with (iocb_tail (w_sq w)) in IH.
    assert (H1 : is_u32 (iocb_head (w_sq w) + 1)) by (unfold is_u32; lia).
    specialize (IH H1 Ht). lia.
Qed.

Lemma submit_prepare_shadow_inv (w : world) :
  shadow_inv (w_sq w) -> shadow_inv (w_sq (prep_world (submit_prepare w))).
Proof.
  intros (Hh & Ht & Ho). unfold submit_prepare.
  destruct (negb _); [exact (conj Hh (conj Ht Ho))|].
  destruct (_ =? _); [exact (conj Hh (conj Ht Ho))|].
  match goal with |- context [submit_fill ?n ?m ?wb ?a ?b ?c] =>
    pose proof (submit_fill_head n m wb a b c Hh Ht) as R;
    pose proof (submit_fill_frame n m wb a b c) as Fr;
    destruct (submit_fill n m wb a b c) as [[w' kt'] sub']
  end.
  cbv zeta in R, Fr. cbn [fst snd] in R, Fr.
  destruct Fr as (_ & Fr2 & Fr3 & _).
  change (iocb_head (w_sq (read_barrier w))) with (iocb_head (w_sq w)) in R.
  change (iocb_tail (w_sq (read_barrier w))) with (iocb_tail (w_sq w)) in *.
  change (sq_kring_entries (w_sq (read_barrier w)))
    with (sq_kring_entries (w_sq w)) in Fr3.
  assert (I : shadow_inv (w_sq w')).
  { unfold shadow_inv, sq_occupancy in *. rewrite Fr2, Fr3.
    unfold is_u32 in *.
    split; [lia|]. split; [exact Ht|].
    destruct (Z_lt_le_dec (iocb_tail (w_sq w)) (iocb_head (w_sq w))) as [L|L].
    - replace (iocb_head (w_sq w')) with (iocb_head (w_sq w)) by lia.
      exact Ho.
    - rewrite u32_small in Ho by (unfold is_u32; lia).
      rewrite u32_small by (unfold is_u32; lia). lia. }
  destruct (sub' =? 0); [exact I|].
  destruct (negb _); exact I.
Qed.

Lemma submit_shadow_inv (fd : Z) (w : world) :
  shadow_inv (w_sq w) -> shadow_inv (w_sq (snd (io_uring_submit fd w))).
Proof.
  intros I. apply submit_prepare_shadow_inv in I.
  unfold io_uring_submit. destruct (submit_prepare w); exact I.
Qed.

Lemma completion_wait_shadow (n : nat) :
  forall (fd head mask : Z) (w : world) (x : wait_exit),
  completion_wait n fd head mask w = Some x ->
  shadow match x with Break _ w' => w' | ReturnErr _ w' => w' end = shadow w.
Proof.
  induction n as [|n IH]; intros fd head mask w x E; [discriminate|].
  rewrite completion_wait_step in E.
  destruct (negb _).
  - now injection E as <-.
  - cbv zeta in E. destruct (_ <? 0).
    + now injection E as <-.
    + apply IH in E. rewrite E. reflexivity.
Qed.

Lemma get_completion_shadow_inv
  (n : nat) (fd : Z) (w : world) (ev : ref) (r : Z) (w' : world) (ev' : ref) :
  io_uring_get_completion n fd w ev = Some (r, w', ev') ->
  shadow_inv (w_sq w) -> shadow_inv (w_sq w').
Proof.
  unfold io_uring_get_completion.
  destruct (completion_wait _ _ _ _ _) as [[e w1|e w1]|] eqn:E;
    [| |discriminate]; apply completion_wait_shadow in E; simpl in E.
  - intros [= _ <- _]. apply shadow_inv_eq. rewrite <- E.
    now destruct e.
  - intros [= _ <- _]. now apply shadow_inv_eq.
Qed.

(** X12.  Whatever the kernel does and whatever calls the program makes, in
    any order, [io_uring_get_iocb], [io_uring_submit] and
    [io_uring_get_completion] keep the shadow indices in [unsigned] range and
    the number of queued descriptors within [*kring_entries]. *)
Theorem api_run_keeps_shadow_inv (cs : list api_call) :
  forall w w' : world,
  shadow_inv (w_sq w) -> api_run cs w = Some w' -> shadow_inv (w_sq w').
Proof.
  induction cs as [|c cs IH]; intros w w' I E.
  - now injection E as <-.
  - simpl in E. destruct (api_step c w) as [w1|] eqn:S1; [|discriminate].
    apply (IH w1 w'); [|exact E].
    destruct c as [|fd|n fd]; simpl in S1.
    + injection S1 as <-. now apply get_iocb_shadow_inv.
    + injection S1 as <-. now apply submit_shadow_inv.
    + destruct (io_uring_get_completion n fd w None) as [[[r w2] ev]|] eqn:G;
        [|discriminate].
      injection S1 as <-. exact (get_completion_shadow_inv _ _ _ _ _ _ _ G I).
Qed.

(** ** Acquire, then submit *)

(** X19.  From a drained ring of [2^k] entries with nothing queued, [n]
    acquisitions ([0 < n <= 2^k], [iocb_tail] not wrapping) followed by one
    [io_uring_submit] publish exactly the acquired descriptors, in the order
    of their acquisition: the pointer the [i]-th call of
    [io_uring_get_iocb] returned is the slot the indirection array names at
    ring position [(ktail + i) & mask]; the kernel-visible tail has advanced
    by [n], and again nothing is queued. *)
Theorem acquire_submit_in_order (k fd : Z) (n : nat) (w : world) :
  sq_head_held ->
  sq_wf (w_sq w) ->
  sq_pow2 k (w_sq w) ->
  sq_khead (w_sq w) = sq_ktail (w_sq w) ->
  iocb_head (w_sq w) = iocb_tail (w_sq w) ->
  (0 < n)%nat ->
  Z.of_nat n <= sq_kring_entries (w_sq w) ->
  iocb_tail (w_sq w) + Z.of_nat n < U32_MOD ->
  let w2 := snd (io_uring_submit fd (snd (acquire n w))) in
  fst (acquire n w) =
    map (fun i : nat =>
           Some (sq_array (w_sq w2)
                   (Z.land (u32 (sq_ktail (w_sq w) + Z.of_nat i))
                           (sq_kring_mask (w_sq w)))))
        (seq 0 n) /\
  sq_ktail (w_sq w2) = u32 (sq_ktail (w_sq w) + Z.of_nat n) /\
  iocb_head (w_sq w2) = iocb_tail (w_sq w2).
Proof.
  intros Hq Hwf Hp Heq Hsh Hn Hcap Hnw. cbv zeta.
  pose proof Hwf as (Hkh & Hkt & Hmk & Hen & Hh & Ht).
  assert (Ho : sq_occupancy (w_sq w) = 0).
  { unfold sq_occupancy. rewrite Hsh, Z.sub_diag. reflexivity. }
  destruct (get_iocbs_room n (w_sq w)) as (I1 & I2 & I3 & I4 & I5 & I6);
    try assumption; [rewrite Ho; lia|].
  assert (T : iocb_tail (snd (get_iocbs n (w_sq w)))
              = iocb_tail (w_sq w) + Z.of_nat n).
  { rewrite I3. apply u32_small. unfold is_u32 in *. lia. }
  unfold acquire. cbn [fst snd].
  set (w1 := update_sq (fun _ => snd (get_iocbs n (w_sq w))) w).
  assert (S1 : w_sq w1 = set_iocb_tail (iocb_tail (w_sq w) + Z.of_nat n)
                                       (w_sq w)).
  { unfold w1. cbn [update_sq w_sq]. now rewrite get_iocbs_frame, T. }
  assert (Hwf1 : sq_wf (w_sq w1)).
  { rewrite S1. unfold sq_wf. cbn [set_iocb_tail sq_khead sq_ktail
      sq_kring_mask sq_kring_entries iocb_head iocb_tail].
    repeat split; try apply Hkh; try apply Hkt; try apply Hmk;
      try apply Hen; try apply Hh; unfold is_u32 in *; lia. }
  assert (Hp1 : sq_pow2 k (w_sq w1)) by (rewrite S1; exact Hp).
  assert (Heq1 : sq_khead (w_sq w1) = sq_ktail (w_sq w1))
    by (rewrite S1; exact Heq).
  assert (Hlt1 : iocb_head (w_sq w1) < iocb_tail (w_sq w1)).
  { rewrite S1. cbn [set_iocb_tail iocb_head iocb_tail]. lia. }
  assert (Hd : iocb_tail (w_sq w1) - iocb_head (w_sq w1) = Z.of_nat n).
  { rewrite S1. cbn [set_iocb_tail iocb_head iocb_tail]. lia. }
  split; [|split].
  - rewrite I1. unfold slots. apply map_ext_in. intros i Hi.
    apply in_seq in Hi. f_equal. unfold slot_at.
    rewrite <- Hsh.
    replace (sq_ktail (w_sq w)) with (sq_ktail (w_sq w1)) by now rewrite S1.
    replace (sq_kring_mask (w_sq w)) with (sq_kring_mask (w_sq w1))
      by now rewrite S1.
    replace (iocb_head (w_sq w)) with (iocb_head (w_sq w1)) by now rewrite S1.
    assert (He1 : sq_kring_entries (w_sq w1) = sq_kring_entries (w_sq w))
      by now rewrite S1.
    symmetry.
    pose proof Hp1 as (Hk & _ & Hm).
    rewrite !(masked_index k) by (assumption || lia).
    apply (submit_indirection k fd w1); try assumption; lia.
  - destruct (submit_prepare_publish w1 Hq Hwf1 Heq1 Hlt1)
      as (w' & P & _ & Kt & _).
    unfold io_uring_submit. rewrite P.
    change (sq_ktail (w_sq (snd (io_uring_enter fd
              (iocb_tail (w_sq w1) - iocb_head (w_sq w1)) 0
              IORING_ENTER_GETEVENTS w'))))
      with (sq_ktail (w_sq w')).
    rewrite Kt, Hd, Heq1. now rewrite S1.
  - destruct (submit_prepare_publish w1 Hq Hwf1 Heq1 Hlt1)
      as (w' & P & _ & _ & _ & Ih & It & _).
    unfold io_uring_submit. rewrite P.
    change (iocb_head (w_sq (snd (io_uring_enter fd
              (iocb_tail (w_sq w1) - iocb_head (w_sq w1)) 0
              IORING_ENTER_GETEVENTS w'))))
      with (iocb_head (w_sq w')).
    change (iocb_tail (w_sq (snd (io_uring_enter fd
              (iocb_tail (w_sq w1) - iocb_head (w_sq w1)) 0
              IORING_ENTER_GETEVENTS w'))))
      with (iocb_tail (w_sq w')).
    now rewrite Ih, It.
Qed.

End Engine.

Arguments mk_world {engine}.
Arguments mk_cells {engine}.
Arguments mk_result {engine}.
Arguments w_sq {engine}.
Arguments w_cq {engine}.
Arguments w_errno {engine}.
Arguments w_engine {engine}.
Arguments w_trace {engine}.
Arguments Submit {engine}.
Arguments Return0 {engine}.
Arguments Break {engine}.
Arguments ReturnErr {engine}.
Arguments read_barrier {engine}.
Arguments submit_prepare {engine}.
Arguments io_uring_enter {engine}.
Arguments io_uring_submit {engine}.
Arguments completion_wait {engine}.
Arguments io_uring_get_completion {engine}.
Arguments sq_head_held {engine}.
Arguments library_cells {engine}.
Arguments write_barrier {engine}.
Arguments store_cq_khead {engine}.
Arguments syscall {engine}.
Arguments sys_ret {engine}.
Arguments wait_result {engine}.
Arguments wait_turn {engine}.
Arguments after_waits {engine}.
Arguments waited {engine}.

(** ** The model at work: rings of depth 4 and three kernels *)

(** The cells of the kernel as they are: a kernel that writes nothing. *)
Definition current_cells {engine : Type} (w : world engine)
  : kernel_cells engine :=
  mk_cells (sq_khead (w_sq w)) (sq_kflags (w_sq w)) (sq_kdropped (w_sq w))
           (cq_ktail (w_cq w)) (cq_koverflow (w_cq w)) (w_engine w).

(** A system call that consumes every published entry and posts as many
    completions; it returns the number consumed. *)
Definition accept_syscall (w : world unit) (nr : Z) (args : list Z)
  : syscall_result unit :=
  let consumed := u32 (sq_ktail (w_sq w) - sq_khead (w_sq w)) in
  mk_result consumed (w_errno w)
    (mk_cells (sq_ktail (w_sq w)) (sq_kflags (w_sq w)) (sq_kdropped (w_sq w))
              (u32 (cq_ktail (w_cq w) + consumed)) (cq_koverflow (w_cq w)) tt).

Definition EINTR : Z := 4.

(** A submission ring of depth 4 with the given indices, and an empty
    completion ring of depth 8. *)
Definition sq4 (khead ktail ihead itail : Z) : io_uring_sq :=
  mk_sq khead ktail 3 4 0 0 (fun _ => 0) ihead itail 80.

Definition ring4 (khead ktail ihead itail : Z) : world unit :=
  mk_world (sq4 khead ktail ihead itail) (mk_cq 0 0 7 8 0 192) 0 tt [].

(** A completion ring of depth 8 with the given indices. *)
Definition cring (khead ktail : Z) : world unit :=
  mk_world (sq4 0 0 0 0) (mk_cq khead ktail 7 8 0 192) 0 tt [].

(** Closed facts about concrete worlds, by evaluation. *)
Ltac by_evaluation :=
  vm_compute; repeat split; try reflexivity; try discriminate;
  try (intro; discriminate).

Lemma current_cells_hold_head : sq_head_held (@current_cells unit).
Proof. intros w. reflexivity. Qed.

Example get_iocb_ring4 :
  io_uring_get_iocb (sq4 0 0 5 7) = (Some 3, sq4 0 0 5 8) /\
  fst (io_uring_get_iocb (sq4 0 0 5 9)) = None.
Proof. by_evaluation. Qed.

Example submit_three :
  fst (io_uring_submit current_cells accept_syscall 1 3 (ring4 0 0 0 3)) = 3 /\
  sq_ktail (w_sq (snd (io_uring_submit current_cells accept_syscall 1 3
                                       (ring4 0 0 0 3)))) = 3 /\
  w_trace (snd (io_uring_submit current_cells accept_syscall 1 3
                                (ring4 0 0 0 3))) =
  [EvSyscall 336 [3; 3; 0; 1] 3;
   EvWriteBarrier; EvStore SqTail 3; EvWriteBarrier;
   EvStore (SqArray 2) 2; EvReadBarrier;
   EvStore (SqArray 1) 1; EvReadBarrier;
   EvStore (SqArray 0) 0; EvReadBarrier;
   EvReadBarrier].
Proof. by_evaluation. Qed.

(** *** C2, C9, C10 *)

Lemma get_iocb_null_unchanged_witness :
  fst (io_uring_get_iocb (sq4 0 0 5 9)) = None /\
  snd (io_uring_get_iocb (sq4 0 0 5 9)) = sq4 0 0 5 9.
Proof.
  split; [reflexivity|].
  apply (get_iocb_null_unchanged (sq4 0 0 5 9)). reflexivity.
Defined.

Lemma get_iocb_occupancy_witness :
  fst (io_uring_get_iocb (sq4 0 0 5 8)) <> None /\
  sq_occupancy (snd (io_uring_get_iocb (sq4 0 0 5 8)))
  <= sq_kring_entries (sq4 0 0 5 8).
Proof.
  split; [discriminate|].
  apply (get_iocb_occupancy (sq4 0 0 5 8)). discriminate.
Defined.

(** The indices have wrapped: [iocb_head = 2^32 - 2], [iocb_tail = 2]. *)
Lemma full_test_witness :
  sq_full (sq4 0 0 4294967294 2) = true <->
  sq_occupancy (sq4 0 0 4294967294 2) = sq_kring_entries (sq4 0 0 4294967294 2).
Proof.
  apply (full_test_iff_occupancy_is_capacity 2 (sq4 0 0 4294967294 2));
    by_evaluation.
Defined.

(** A ring whose capacity is [UINT_MAX], with [UINT_MAX] descriptors
    acquired. *)
Definition sq_uint_max : io_uring_sq :=
  mk_sq 0 0 4294967295 4294967295 0 0 (fun _ => 0) 0 4294967295 0.

(** Why the ring's geometry matters: no ring has the capacity
    [UINT_MAX = 2^32 - 1], which is no power of two; were there one, with
    all of it acquired [next] would wrap to [iocb_head] and the fullness
    test would be false. *)
Example full_test_at_uint_max :
  sq_wf sq_uint_max /\
  sq_occupancy sq_uint_max <= sq_kring_entries sq_uint_max /\
  sq_occupancy sq_uint_max = sq_kring_entries sq_uint_max /\
  sq_full sq_uint_max = false /\
  ~ (sq_full sq_uint_max = true <->
     sq_occupancy sq_uint_max = sq_kring_entries sq_uint_max).
Proof.
  repeat split; try (by_evaluation; fail).
  intros [_ H]. specialize (H eq_refl). discriminate H.
Qed.

(** *** C8, C4, C5 *)

Lemma submit_nothing_queued_witness :
  io_uring_submit current_cells accept_syscall 1 3 (ring4 2 2 2 2) =
    (0, read_barrier current_cells (ring4 2 2 2 2)) /\
  w_trace (snd (io_uring_submit current_cells accept_syscall 1 3
                                (ring4 2 2 2 2))) = [EvReadBarrier] /\
  library_cells (snd (io_uring_submit current_cells accept_syscall 1 3
                                      (ring4 2 2 2 2))) =
  library_cells (ring4 2 2 2 2).
Proof.
  apply (submit_nothing_queued unit current_cells accept_syscall 1 3
                               (ring4 2 2 2 2)); reflexivity.
Defined.

(** One entry published by an earlier call is still unconsumed
    ([khead = 1], [ktail = 2]) and one more descriptor is queued. *)
Lemma submit_pending_witness :
  submit_prepare current_cells (ring4 1 2 2 3) =
    Submit 4 (read_barrier current_cells (ring4 1 2 2 3)) /\
  io_uring_submit current_cells accept_syscall 1 3 (ring4 1 2 2 3) =
    io_uring_enter accept_syscall 3 4 0 1
                   (read_barrier current_cells (ring4 1 2 2 3)) /\
  w_trace (snd (io_uring_submit current_cells accept_syscall 1 3
                                (ring4 1 2 2 3))) =
    [EvSyscall 336 [3; 4; 0; 1] 1; EvReadBarrier] /\
  library_cells (snd (io_uring_submit current_cells accept_syscall 1 3
                                      (ring4 1 2 2 3))) =
  library_cells (ring4 1 2 2 3).
Proof.
  apply (submit_pending_goes_to_enter unit current_cells accept_syscall 1 3
                                      (ring4 1 2 2 3)).
  by_evaluation.
Defined.

(** The world at the label [submit:] when two descriptors are queued on an
    empty ring. *)
Definition ring4_two_published : world unit :=
  match submit_prepare current_cells (ring4 0 0 0 2) with
  | Submit _ w => w
  | Return0 w => w
  end.

Lemma submit_enter_arguments_witness :
  io_uring_submit current_cells accept_syscall 1 3 (ring4 0 0 0 2) =
    syscall accept_syscall 336 [3; 2; 0; 1] ring4_two_published /\
  fst (io_uring_submit current_cells accept_syscall 1 3 (ring4 0 0 0 2)) =
    sys_ret (accept_syscall ring4_two_published 336 [3; 2; 0; 1]) /\
  w_trace (snd (io_uring_submit current_cells accept_syscall 1 3
                                (ring4 0 0 0 2))) =
    EvSyscall 336 [3; 2; 0; 1]
      (fst (io_uring_submit current_cells accept_syscall 1 3 (ring4 0 0 0 2)))
    :: w_trace ring4_two_published.
Proof.
  apply (submit_enter_arguments unit current_cells accept_syscall 1 3
                                (ring4 0 0 0 2) 2 ring4_two_published).
  vm_compute. reflexivity.
Defined.

(** C5, as stated, fails: the call reaches the engine invocation with two
    entries submitted, and the [min_complete] it passes is 0, so no
    [io_uring_enter] call with [min_complete >= 1] is the one it makes. *)
Lemma submit_min_complete_counterexample :
  submit_prepare current_cells (ring4 0 0 0 2) = Submit 2 ring4_two_published /\
  hd_error (w_trace (snd (io_uring_submit current_cells accept_syscall 1 3
                                          (ring4 0 0 0 2)))) =
    Some (EvSyscall NR_sys_io_uring_enter [3; 2; 0; 1] 2) /\
  ~ (exists min_complete : Z,
       1 <= min_complete /\
       io_uring_submit current_cells accept_syscall 1 3 (ring4 0 0 0 2) =
       io_uring_enter accept_syscall 3 2 min_complete 1 ring4_two_published).
Proof.
  split; [vm_compute; reflexivity|].
  split; [vm_compute; reflexivity|].
  intros (mc & Hmc & E).
  apply (f_equal (fun r => hd_error (w_trace (snd r)))) in E.
  vm_compute in E. injection E as E. lia.
Qed.

(** *** C1 *)

Definition ring4_three_published : world unit :=
  match submit_prepare current_cells (ring4 4294967295 4294967295 0 3) with
  | Submit _ w => w
  | Return0 w => w
  end.

(** Head and tail stand at [2^32 - 1]: the new tail wraps to 2. *)
Lemma submit_publish_tail_witness :
  let w := ring4 4294967295 4294967295 0 3 in
  let head := sq_khead (w_sq w) in
  let tail' :=
    sq_ktail (w_sq (snd (io_uring_submit current_cells accept_syscall 1 3 w))) in
  0 < 3 /\
  3 = iocb_tail (w_sq w) - iocb_head (w_sq w) /\
  tail' = u32 (head + 3) /\
  u32 (tail' - head) = 3 /\
  3 <= sq_kring_entries (w_sq w) /\
  tail' <= head + sq_kring_entries (w_sq w).
Proof.
  apply (submit_publish_tail unit current_cells accept_syscall 1 3
           (ring4 4294967295 4294967295 0 3) 3 ring4_three_published).
  - intros w. reflexivity.
  - by_evaluation.
  - reflexivity.
  - by_evaluation.
  - vm_compute. reflexivity.
Defined.

Lemma submit_publishes_all_witness :
  let w := ring4 4294967295 4294967295 0 3 in
  let n := iocb_tail (w_sq w) - iocb_head (w_sq w) in
  exists w1 : world unit,
    submit_prepare current_cells w = Submit n w1 /\
    io_uring_submit current_cells accept_syscall 1 3 w =
      io_uring_enter accept_syscall 3 n 0 1 w1 /\
    sq_ktail (w_sq w1) = u32 (sq_khead (w_sq w) + n) /\
    iocb_head (w_sq w1) = iocb_tail (w_sq w).
Proof.
  apply (submit_publishes_all unit current_cells accept_syscall 1 3
           (ring4 4294967295 4294967295 0 3)).
  - intros w. reflexivity.
  - by_evaluation.
  - reflexivity.
  - reflexivity.
Defined.

(** Two descriptors are queued, at the indices [2^32 - 1] and 0. *)
Lemma submit_wrapped_shadow_witness :
  sq_occupancy (sq4 0 0 4294967295 1) = 2 /\
  io_uring_submit current_cells accept_syscall 1 3 (ring4 0 0 4294967295 1) =
    (0, read_barrier current_cells (ring4 0 0 4294967295 1)).
Proof.
  split; [reflexivity|].
  apply (submit_wrapped_shadow_returns_zero unit current_cells accept_syscall
           1 3 (ring4 0 0 4294967295 1)); reflexivity.
Defined.

Definition ring4_five_published : world unit :=
  match submit_prepare current_cells (ring4 0 0 0 5) with
  | Submit _ w => w
  | Return0 w => w
  end.

(** Why the occupancy bound is a hypothesis: the loop compares the candidate
    tail with the kernel's head for equality only and never reads
    [*kring_entries].  On a hand-built descriptor with five entries between
    the shadow indices of a ring of four, a state no call of
    [io_uring_get_iocb] produces, it would publish five. *)
Example submit_beyond_occupancy_bound :
  let w := ring4 0 0 0 5 in
  let r := io_uring_submit current_cells accept_syscall 1 3 w in
  sq_head_held (@current_cells unit) /\
  sq_wf (w_sq w) /\
  sq_khead (w_sq w) = sq_ktail (w_sq w) /\
  submit_prepare current_cells w = Submit 5 ring4_five_published /\
  fst r = 5 /\
  sq_ktail (w_sq (snd r)) = 5 /\
  ~ (sq_ktail (w_sq (snd r)) <= sq_khead (w_sq w) + sq_kring_entries (w_sq w)).
Proof.
  cbv zeta. split; [exact current_cells_hold_head|].
  split; [by_evaluation|].
  split; [reflexivity|].
  split; [vm_compute; reflexivity|].
  split; [vm_compute; reflexivity|].
  split; [vm_compute; reflexivity|].
  vm_compute. intros H. apply H. reflexivity.
Qed.

(** *** C3, C6 *)

Lemma get_completion_visible_witness :
  exists w' : world unit,
    io_uring_get_completion current_cells accept_syscall 1 1%nat 3
                            (cring 9 10) None =
      Some (0, w', Some (Z.land 9 7)) /\
    cq_khead (w_cq w') = u32 (9 + 1) /\
    w_trace w' = [EvWriteBarrier; EvStore CqHead (u32 (9 + 1)); EvReadBarrier].
Proof.
  apply (get_completion_visible unit current_cells accept_syscall 1 0 3
                                (cring 9 10) None).
  by_evaluation.
Defined.

(** A system call that does nothing and succeeds once, then fails with
    [EINTR]; the engine's state counts the calls. *)
Definition flaky_syscall (w : world nat) (nr : Z) (args : list Z)
  : syscall_result nat :=
  match w_engine w with
  | O => mk_result 0 (w_errno w)
           (mk_cells (sq_khead (w_sq w)) (sq_kflags (w_sq w))
                     (sq_kdropped (w_sq w)) (cq_ktail (w_cq w))
                     (cq_koverflow (w_cq w)) 1%nat)
  | S _ => mk_result (-1) EINTR (current_cells w)
  end.

(** An empty completion ring with its indices at 9. *)
Definition cring_flaky : world nat :=
  mk_world (sq4 0 0 0 0) (mk_cq 9 9 7 8 0 192) 0 0%nat [].

(** The second engine call fails: one turn of waiting, then the failure. *)
Lemma get_completion_engine_failure_witness :
  let wk := after_waits current_cells flaky_syscall 1 1%nat 3 cring_flaky in
  let w' := wait_turn current_cells flaky_syscall 1 3 wk in
  io_uring_get_completion current_cells flaky_syscall 1 (1 + 1)%nat 3
                          cring_flaky (Some 5) =
    Some (- w_errno w', w', Some 5) /\
  cq_khead (w_cq w') = cq_khead (w_cq cring_flaky) /\
  library_cells w' = library_cells cring_flaky /\
  w_trace w' =
    EvSyscall NR_sys_io_uring_enter [3; 0; 1; 1]
              (wait_result current_cells flaky_syscall 1 3 wk)
    :: EvReadBarrier :: w_trace wk.
Proof.
  apply (get_completion_engine_failure nat current_cells flaky_syscall 1
           1%nat 0%nat 3 cring_flaky (Some 5)).
  - intros j Hj. assert (j = 0%nat) as -> by lia. by_evaluation.
  - reflexivity.
  - reflexivity.
Defined.

Example get_completion_flaky :
  option_map (fun r => (fst (fst r), snd r))
    (io_uring_get_completion current_cells flaky_syscall 1 5%nat 3
                             cring_flaky (Some 5))
  = Some (- EINTR, Some 5).
Proof. by_evaluation. Qed.

(** Two entries are published and nothing has completed: the first turn
    waits in [io_uring_enter], the second finds the completions. *)
Definition two_in_flight : world unit :=
  mk_world (sq4 0 2 2 2) (mk_cq 0 0 7 8 0 192) 0 tt [].

Lemma get_completion_after_waits_witness :
  let head := cq_khead (w_cq two_in_flight) in
  let wk :=
    read_barrier current_cells
      (after_waits current_cells accept_syscall 1 1%nat 3 two_in_flight) in
  io_uring_get_completion current_cells accept_syscall 1 (1 + 1)%nat 3
                          two_in_flight None =
    Some (0,
          write_barrier (store_cq_khead (u32 (head + 1)) wk),
          Some (Z.land head (cq_kring_mask (w_cq two_in_flight)))).
Proof.
  apply (get_completion_after_waits unit current_cells accept_syscall 1
           1%nat 0%nat 3 two_in_flight None).
  - intros j Hj. assert (j = 0%nat) as -> by lia. by_evaluation.
  - by_evaluation.
Defined.

Example get_completion_after_wait :
  option_map (fun r => (fst (fst r), snd r))
    (io_uring_get_completion current_cells accept_syscall 1 2%nat 3
       two_in_flight None)
  = Some (0, Some 0).
Proof. by_evaluation. Qed.

Arguments get_completions {engine}.
Arguments cq_tail_held {engine}.
Arguments api_step {engine}.
Arguments api_run {engine}.
Arguments prep_world {engine}.
Arguments shadow {engine}.
Arguments acquire {engine}.

(** *** X6 .. X12 *)

(** A system call that does nothing and returns 0. *)
Definition idle_syscall (w : world unit) (nr : Z) (args : list Z)
  : syscall_result unit :=
  mk_result 0 (w_errno w) (current_cells w).

Lemma get_iocb_slot_in_range_witness :
  fst (io_uring_get_iocb (sq4 0 0 5 7)) = Some 3 /\
  0 <= 3 < sq_kring_entries (sq4 0 0 5 7).
Proof.
  split; [reflexivity|].
  apply (get_iocb_slot_in_range 2 (sq4 0 0 5 7) 3); by_evaluation.
Defined.

(** An empty ring whose indices stand at [2^32 - 2]: four acquisitions, the
    slots 2, 3, 0, 1, and the indices wrap. *)
Lemma get_iocbs_until_full_witness :
  let sq := sq4 0 0 4294967294 4294967294 in
  let sq' := snd (get_iocbs 4 sq) in
  fst (get_iocbs 4 sq) = slots sq 4 /\
  iocb_head sq' = iocb_head sq /\
  iocb_tail sq' = u32 (iocb_tail sq + Z.of_nat 4) /\
  sq_occupancy sq' = sq_kring_entries sq /\
  io_uring_get_iocb sq' = (None, sq').
Proof.
  apply (get_iocbs_until_full 4 (sq4 0 0 4294967294 4294967294));
    by_evaluation.
Defined.

Example get_iocbs_wrap :
  get_iocbs 5 (sq4 0 0 4294967294 4294967294) =
  ([Some 2; Some 3; Some 0; Some 1; None], sq4 0 0 4294967294 2).
Proof. vm_compute. reflexivity. Qed.

Lemma get_iocbs_distinct_witness :
  NoDup (fst (get_iocbs 3 (sq4 0 0 4294967294 4294967295))) /\
  forall r : ref, In r (fst (get_iocbs 3 (sq4 0 0 4294967294 4294967295))) ->
    exists i : Z,
      r = Some i /\ 0 <= i < sq_kring_entries (sq4 0 0 4294967294 4294967295).
Proof.
  apply (get_iocbs_distinct 2 3 (sq4 0 0 4294967294 4294967295));
    by_evaluation.
Defined.

(** Three descriptors, acquired at the shadow indices 5, 6, 7, are published
    at the ring positions 6, 7, 8. *)
Lemma submit_publishes_indirection_witness :
  sq_array (w_sq (snd (io_uring_submit current_cells accept_syscall 1 3
                                       (ring4 6 6 5 8))))
           (Z.land (u32 (sq_ktail (w_sq (ring4 6 6 5 8)) + 2))
                   (sq_kring_mask (w_sq (ring4 6 6 5 8))))
  = Z.land (u32 (iocb_head (w_sq (ring4 6 6 5 8)) + 2))
           (sq_kring_mask (w_sq (ring4 6 6 5 8))).
Proof.
  apply (submit_publishes_indirection unit current_cells accept_syscall 1 2 3
           (ring4 6 6 5 8)).
  - intros w. reflexivity.
  - by_evaluation.
  - by_evaluation.
  - reflexivity.
  - reflexivity.
  - by_evaluation.
  - by_evaluation.
Defined.

Example submit_indirection_table :
  map (sq_array (w_sq (snd (io_uring_submit current_cells accept_syscall 1 3
                                            (ring4 6 6 5 8)))))
      [0; 1; 2; 3]
  = [3; 0; 1; 2].
Proof. vm_compute. reflexivity. Qed.

(** The engine call of the first submit consumes nothing; two more
    descriptors are acquired; the second submit does not publish them. *)
Definition unconsumed : world unit :=
  snd (io_uring_submit current_cells idle_syscall 1 3 (ring4 6 6 5 8)).

Definition unconsumed_two_more : world unit := snd (acquire 2 unconsumed).

Lemma submit_again_after_unconsumed_witness :
  fst (acquire 2 unconsumed) = slots (w_sq unconsumed) 2 /\
  io_uring_submit current_cells idle_syscall 1 3 unconsumed_two_more =
    io_uring_enter idle_syscall 3 (sq_kring_entries (w_sq (ring4 6 6 5 8)))
                   0 1 (read_barrier current_cells unconsumed_two_more) /\
  library_cells (snd (io_uring_submit current_cells idle_syscall 1 3
                                      unconsumed_two_more))
    = library_cells unconsumed_two_more /\
  sq_ktail (w_sq (snd (io_uring_submit current_cells idle_syscall 1 3
                                       unconsumed_two_more)))
    = u32 (sq_khead (w_sq (ring4 6 6 5 8))
           + (iocb_tail (w_sq (ring4 6 6 5 8))
              - iocb_head (w_sq (ring4 6 6 5 8)))) /\
  sq_occupancy (w_sq (snd (io_uring_submit current_cells idle_syscall 1 3
                                           unconsumed_two_more)))
    = Z.of_nat 2.
Proof.
  apply (submit_again_after_unconsumed unit current_cells idle_syscall 1 3 2
           (ring4 6 6 5 8)).
  - intros w. reflexivity.
  - by_evaluation.
  - reflexivity.
  - reflexivity.
  - by_evaluation.
  - vm_compute. reflexivity.
Defined.

Example submit_again_values :
  fst (acquire 2 unconsumed) = [Some 0; Some 1] /\
  (sq_ktail (w_sq unconsumed), iocb_head (w_sq unconsumed),
   iocb_tail (w_sq unconsumed)) = (9, 8, 8) /\
  fst (io_uring_submit current_cells idle_syscall 1 3 unconsumed_two_more)
    = 0 /\
  (sq_ktail (w_sq (snd (io_uring_submit current_cells idle_syscall 1 3
                                        unconsumed_two_more))),
   iocb_head (w_sq (snd (io_uring_submit current_cells idle_syscall 1 3
                                         unconsumed_two_more))),
   iocb_tail (w_sq (snd (io_uring_submit current_cells idle_syscall 1 3
                                         unconsumed_two_more))))
    = (9, 8, 10) /\
  hd_error (w_trace (snd (io_uring_submit current_cells idle_syscall 1 3
                                          unconsumed_two_more)))
    = Some (EvSyscall 336 [3; 4; 0; 1] 0).
Proof.
  split; [vm_compute; reflexivity|].
  split; [vm_compute; reflexivity|].
  split; [vm_compute; reflexivity|].
  split; vm_compute; reflexivity.
Qed.

Lemma current_cells_hold_cq_tail : cq_tail_held (@current_cells unit).
Proof. intros w. reflexivity. Qed.

(** Three completions are posted, at the indices 4294967295, 0 and 1. *)
Lemma get_completions_drain_witness :
  exists w' : world unit,
    get_completions current_cells accept_syscall 1 3 1 3
                    (cring 4294967295 2) =
      Some (map (fun i => (0, Some (record_at (w_cq (cring 4294967295 2)) i)))
                (seq 0 3), w') /\
    cq_khead (w_cq w') =
      u32 (cq_khead (w_cq (cring 4294967295 2)) + Z.of_nat 3) /\
    cq_ready (w_cq w') = cq_ready (w_cq (cring 4294967295 2)) - Z.of_nat 3 /\
    syscalls (w_trace w') = syscalls (w_trace (cring 4294967295 2)).
Proof.
  apply (get_completions_drain unit current_cells accept_syscall 1 3 0
           current_cells_hold_cq_tail 3 (cring 4294967295 2)); by_evaluation.
Defined.

Example get_completions_records :
  option_map fst
    (get_completions current_cells accept_syscall 1 3 1 3 (cring 4294967295 2))
  = Some [(0, Some 7); (0, Some 0); (0, Some 1)].
Proof. vm_compute. reflexivity. Qed.

(** Six acquisitions on a ring of four, a submit, two completions, and one
    more acquisition. *)
Definition a_session : list api_call :=
  [CallGetIocb; CallGetIocb; CallGetIocb; CallGetIocb; CallGetIocb;
   CallGetIocb; CallSubmit 3; CallGetCompletion 2 3; CallGetCompletion 2 3;
   CallGetIocb].

Definition after_session : world unit :=
  match api_run current_cells accept_syscall 1 a_session (ring4 0 0 0 0) with
  | Some w => w
  | None => ring4 0 0 0 0
  end.

Lemma api_run_keeps_shadow_inv_witness :
  api_run current_cells accept_syscall 1 a_session (ring4 0 0 0 0)
    = Some after_session /\
  shadow_inv (w_sq after_session).
Proof.
  split; [vm_compute; reflexivity|].
  apply (api_run_keeps_shadow_inv unit current_cells accept_syscall 1
           a_session (ring4 0 0 0 0) after_session).
  - by_evaluation.
  - vm_compute. reflexivity.
Defined.

Example after_session_indices :
  (iocb_head (w_sq after_session), iocb_tail (w_sq after_session),
   sq_ktail (w_sq after_session), cq_khead (w_cq after_session)) = (4, 5, 4, 2).
Proof. vm_compute. reflexivity. Qed.

(** *** X19 *)

Example acquire_three :
  fst (acquire 3 (ring4 6 6 5 5)) = [Some 1; Some 2; Some 3] /\
  map (sq_array (w_sq (snd (io_uring_submit current_cells accept_syscall 1 3
                              (snd (acquire 3 (ring4 6 6 5 5)))))))
      [2; 3; 0] = [1; 2; 3].
Proof. split; vm_compute; reflexivity. Qed.

Lemma acquire_submit_in_order_witness :
  fst (acquire 3 (ring4 6 6 5 5)) =
    map (fun i : nat =>
           Some (sq_array
                   (w_sq (snd (io_uring_submit current_cells accept_syscall
                                 1 3 (snd (acquire 3 (ring4 6 6 5 5))))))
                   (Z.land (u32 (sq_ktail (w_sq (ring4 6 6 5 5)) + Z.of_nat i))
                           (sq_kring_mask (w_sq (ring4 6 6 5 5))))))
        (seq 0 3) /\
  sq_ktail (w_sq (snd (io_uring_submit current_cells accept_syscall 1 3
                         (snd (acquire 3 (ring4 6 6 5 5))))))
    = u32 (sq_ktail (w_sq (ring4 6 6 5 5)) + Z.of_nat 3) /\
  iocb_head (w_sq (snd (io_uring_submit current_cells accept_syscall 1 3
                          (snd (acquire 3 (ring4 6 6 5 5))))))
    = iocb_tail (w_sq (snd (io_uring_submit current_cells accept_syscall 1 3
                              (snd (acquire 3 (ring4 6 6 5 5)))))).
Proof.
  apply (acquire_submit_in_order unit current_cells accept_syscall 1 2 3 3
           (ring4 6 6 5 5)).
  - intros w. reflexivity.
  - by_evaluation.
  - by_evaluation.
  - reflexivity.
  - reflexivity.
  - repeat constructor.
  - by_evaluation.
  - reflexivity.
Defined.

End Queue.

Module Setup.

(** ** Ring initialization: [io_uring_mmap]

    Here a pointer is an address.  The address space is the list of the
    mapped intervals; [mmap(2)] and [munmap(2)] follow their manual pages:
    [mmap] maps whole pages at an address the kernel chooses or fails with
    [MAP_FAILED] and [errno]; [munmap] refuses an address that is not a
    multiple of the page size (and a zero length) with [EINVAL], and
    otherwise unmaps every page of the range. *)

(** [p->sq_off] and [p->cq_off], the offsets of the fields in the mapped
    regions. *)
Record io_sqring_offsets : Type := mk_sq_off {
  sqo_head : Z;
  sqo_tail : Z;
  sqo_ring_mask : Z;
  sqo_ring_entries : Z;
  sqo_flags : Z;
  sqo_dropped : Z;
  sqo_array : Z
}.

Record io_cqring_offsets : Type := mk_cq_off {
  cqo_head : Z;
  cqo_tail : Z;
  cqo_ring_mask : Z;
  cqo_ring_entries : Z;
  cqo_overflow : Z;
  cqo_events : Z
}.

(** [struct io_uring_params], as far as [io_uring_mmap] reads it. *)
Record io_uring_params : Type := mk_params {
  sq_entries : Z;
  cq_entries : Z;
  sq_off : io_sqring_offsets;
  cq_off : io_cqring_offsets
}.

(** [struct io_uring_sq] and [struct io_uring_cq] with their pointer fields
    as addresses. *)
Record io_uring_sq : Type := mk_sq {
  sq_khead : Z;
  sq_ktail : Z;
  sq_kring_mask : Z;
  sq_kring_entries : Z;
  sq_kflags : Z;
  sq_kdropped : Z;
  sq_array : Z;
  sq_iocbs : Z;
  iocb_head : Z;
  iocb_tail : Z;
  sq_ring_sz : Z
}.

Record io_uring_cq : Type := mk_cq {
  cq_khead : Z;
  cq_ktail : Z;
  cq_kring_mask : Z;
  cq_kring_entries : Z;
  cq_koverflow : Z;
  cq_events : Z;
  cq_ring_sz : Z
}.

(** The page size of x86-64, the one architecture [syscall.c] accepts. *)
Definition PAGE_SIZE : Z := 4096.

(** [errno] of a refused [munmap]. *)
Definition EINVAL : Z := 22.

(** The kernel's answer to [mmap]: a refusal with its [errno], or a mapping
    at the address [addr], a page boundary of the kernel's choice. *)
Inductive mmap_result : Type :=
| MapFailed (errno : Z)
| MapAt (addr : Z).

(** The kernel's choice for a [mmap]: refuse, or map at page number [n]. *)
Inductive mmap_choice : Type :=
| Refuse (errno : Z)
| AtPage (n : Z).

(** The calls into the kernel, most recent first. *)
Inductive vm_call : Type :=
| CallMmap (len fd off : Z) (r : mmap_result)
| CallMunmap (addr len ret : Z).

(** The address space of the process: the mapped intervals [lo, hi), [errno]
    and the calls made. *)
Record vm : Type := mk_vm {
  vm_regions : list (Z * Z);
  vm_errno : Z;
  vm_calls : list vm_call
}.

(** [x] lies in a mapped page. *)
Definition mapped (m : vm) (x : Z) : bool :=
  existsb (fun r => (fst r <=? x) && (x <? snd r)) (vm_regions m).

(** What is left of the interval [r] once [lo, hi) is unmapped. *)
Definition cut (lo hi : Z) (r : Z * Z) : list (Z * Z) :=
  (if fst r <? Z.min (snd r) lo then [(fst r, Z.min (snd r) lo)] else []) ++
  (if Z.max (fst r) hi <? snd r then [(Z.max (fst r) hi, snd r)] else []).

Definition unmap_range (lo hi : Z) (rs : list (Z * Z)) : list (Z * Z) :=
  flat_map (cut lo hi) rs.

(** The pointer value -1 that [mmap] returns on failure. *)
Definition MAP_FAILED : Z := -1.

(** [len] rounded up to whole pages. *)
Definition page_up (len : Z) : Z :=
  (len + PAGE_SIZE - 1) / PAGE_SIZE * PAGE_SIZE.

(** A value of type [size_t] (64 bits on x86-64). *)
Definition size_t (x : Z) : Z := x mod 2 ^ 64.

Definition sizeof_unsigned : Z := 4.

Section Mapping.

(** The sizes of the two record types and the three offset tokens of
    [io_uring.h], a header that is not part of the sources. *)
Variable sizeof_io_uring_iocb : Z.
Variable sizeof_io_uring_event : Z.
Variable IORING_OFF_SQ_RING : Z.
Variable IORING_OFF_IOCB : Z.
Variable IORING_OFF_CQ_RING : Z.

(** The kernel's choice for a [mmap] of [len] bytes of [fd] at [off]. *)
Variable kernel_mmap : vm -> Z -> Z -> Z -> mmap_choice.

(** [mmap(0, len, PROT_READ | PROT_WRITE, MAP_SHARED | MAP_POPULATE, fd, off)]:
    the pointer returned and the address space after the call. *)
Definition mmap (len fd off : Z) (m : vm) : Z * vm :=
  match kernel_mmap m len fd off with
  | Refuse e =>
      (MAP_FAILED,
       mk_vm (vm_regions m) e (CallMmap len fd off (MapFailed e) :: vm_calls m))
  | AtPage n =>
      let a := n * PAGE_SIZE in
      (a,
       mk_vm ((a, a + page_up len) :: vm_regions m) (vm_errno m)
             (CallMmap len fd off (MapAt a) :: vm_calls m))
  end.

(** [munmap(addr, len)]. *)
Definition munmap (addr len : Z) (m : vm) : Z * vm :=
  if (addr mod PAGE_SIZE =? 0) && (0 <? len) then
    (0,
     mk_vm (unmap_range addr (addr + page_up len) (vm_regions m)) (vm_errno m)
           (CallMunmap addr len 0 :: vm_calls m))
  else
    (-1, mk_vm (vm_regions m) EINVAL (CallMunmap addr len (-1) :: vm_calls m)).

(** The assignments [sq->khead = ptr + p->sq_off.head; ...]. *)
Definition sq_set_pointers (ptr : Z) (o : io_sqring_offsets) (sq : io_uring_sq)
  : io_uring_sq :=
  mk_sq (ptr + sqo_head o) (ptr + sqo_tail o) (ptr + sqo_ring_mask o)
        (ptr + sqo_ring_entries o) (ptr + sqo_flags o) (ptr + sqo_dropped o)
        (ptr + sqo_array o)
        (sq_iocbs sq) (iocb_head sq) (iocb_tail sq) (sq_ring_sz sq).

Definition cq_set_pointers (ptr : Z) (o : io_cqring_offsets) (cq : io_uring_cq)
  : io_uring_cq :=
  mk_cq (ptr + cqo_head o) (ptr + cqo_tail o) (ptr + cqo_ring_mask o)
        (ptr + cqo_ring_entries o) (ptr + cqo_overflow o) (ptr + cqo_events o)
        (cq_ring_sz cq).

Definition sq_set_ring_sz (v : Z) (sq : io_uring_sq) : io_uring_sq :=
  mk_sq (sq_khead sq) (sq_ktail sq) (sq_kring_mask sq) (sq_kring_entries sq)
        (sq_kflags sq) (sq_kdropped sq) (sq_array sq)
        (sq_iocbs sq) (iocb_head sq) (iocb_tail sq) v.

Definition sq_set_iocbs (v : Z) (sq : io_uring_sq) : io_uring_sq :=
  mk_sq (sq_khead sq) (sq_ktail sq) (sq_kring_mask sq) (sq_kring_entries sq)
        (sq_kflags sq) (sq_kdropped sq) (sq_array sq)
        v (iocb_head sq) (iocb_tail sq) (sq_ring_sz sq).

Definition cq_set_ring_sz (v : Z) (cq : io_uring_cq) : io_uring_cq :=
  mk_cq (cq_khead cq) (cq_ktail cq) (cq_kring_mask cq) (cq_kring_entries cq)
        (cq_koverflow cq) (cq_events cq) v.

(** What [io_uring_mmap] leaves behind: the value returned, the two
    descriptors and the address space. *)
Record mmap_outcome : Type := mk_outcome {
  out_ret : Z;
  out_sq : io_uring_sq;
  out_cq : io_uring_cq;
  out_vm : vm
}.

(** [io_uring_mmap]. *)
Definition io_uring_mmap (fd : Z) (p : io_uring_params)
  (sq : io_uring_sq) (cq : io_uring_cq) (m : vm) : mmap_outcome :=
  let sq := sq_set_ring_sz
              (size_t (sqo_array (sq_off p) + sq_entries p * sizeof_unsigned))
              sq in
  let '(ptr, m) := mmap (sq_ring_sz sq) fd IORING_OFF_SQ_RING m in
  if ptr =? MAP_FAILED then mk_outcome (- vm_errno m) sq cq m
  else
    let sq := sq_set_pointers ptr (sq_off p) sq in
    let size := size_t (sq_entries p * sizeof_io_uring_iocb) in
    let '(iocbs, m) := mmap size fd IORING_OFF_IOCB m in
    let sq := sq_set_iocbs iocbs sq in
    if sq_iocbs sq =? MAP_FAILED then
      let ret := - vm_errno m in
      (* err: *)
      let '(_, m) := munmap (sq_khead sq) (sq_ring_sz sq) m in
      mk_outcome ret sq cq m
    else
      let cq := cq_set_ring_sz
                  (size_t (cqo_events (cq_off p)
                           + cq_entries p * sizeof_io_uring_event))
                  cq in
      let '(ptr, m) := mmap (cq_ring_sz cq) fd IORING_OFF_CQ_RING m in
      if ptr =? MAP_FAILED then
        let ret := - vm_errno m in
        let '(_, m) :=
          munmap (sq_iocbs sq)
                 (size_t (sq_entries p * sizeof_io_uring_iocb)) m in
        (* goto err *)
        let '(_, m) := munmap (sq_khead sq) (sq_ring_sz sq) m in
        mk_outcome ret sq cq m
      else
        let cq := cq_set_pointers ptr (cq_off p) cq in
        mk_outcome fd sq cq m.

(** * Properties *)

(** ** The address space *)

Lemma mapped_cons (lo hi : Z) (rs : list (Z * Z)) (e : Z) (cs : list vm_call)
  (x : Z) :
  mapped (mk_vm ((lo, hi) :: rs) e cs) x =
  ((lo <=? x) && (x <? hi)) || mapped (mk_vm rs e cs) x.
Proof. reflexivity. Qed.

Lemma mapped_regions (m m' : vm) (x : Z) :
  vm_regions m' = vm_regions m -> mapped m' x = mapped m x.
Proof. unfold mapped. now intros ->. Qed.

(** Unmapping [lo, hi) removes exactly the addresses of [lo, hi). *)
Lemma cut_spec (lo hi : Z) (r : Z * Z) (x : Z) :
  existsb (fun r => (fst r <=? x) && (x <? snd r)) (cut lo hi r) =
  ((fst r <=? x) && (x <? snd r)) && negb ((lo <=? x) && (x <? hi)).
Proof.
  destruct r as [a b]. unfold cut. simpl fst. simpl snd.
  destruct (a <? Z.min b lo) eqn:L; destruct (Z.max a hi <? b) eqn:R;
    simpl;
    destruct (a <=? x) eqn:A; destruct (x <? b) eqn:B;
    destruct (lo <=? x) eqn:C; destruct (x <? hi) eqn:D;
    destruct (x <? Z.min b lo) eqn:E; destruct (Z.max a hi <=? x) eqn:F;
    simpl; try reflexivity; exfalso;
    rewrite ?Z.ltb_lt, ?Z.ltb_ge, ?Z.leb_le, ?Z.leb_gt in *; lia.
Qed.

Lemma unmap_range_spec (lo hi : Z) (rs : list (Z * Z)) (x : Z) :
  existsb (fun r => (fst r <=? x) && (x <? snd r)) (unmap_range lo hi rs) =
  existsb (fun r => (fst r <=? x) && (x <? snd r)) rs
  && negb ((lo <=? x) && (x <? hi)).
Proof.
  induction rs as [|r rs IH]; [reflexivity|].
  unfold unmap_range in *. simpl flat_map.
  rewrite existsb_app, cut_spec, IH. simpl existsb.
  destruct ((fst r <=? x) && (x <? snd r));
    destruct (existsb _ rs); destruct (negb _); reflexivity.
Qed.

Lemma page_up_0 : page_up 0 = 0.
Proof. reflexivity. Qed.

(** [munmap] at a page boundary: afterwards nothing of the range is mapped,
    and nothing is mapped that was not. *)
Lemma munmap_releases (addr len : Z) (m : vm) (x : Z) :
  addr mod PAGE_SIZE = 0 -> 0 <= len ->
  mapped (snd (munmap addr len m)) x = true ->
  mapped m x = true /\ ~ (addr <= x < addr + page_up len).
Proof.
  intros Ha Hl. unfold munmap. rewrite Ha, Z.eqb_refl. simpl andb.
  destruct (0 <? len) eqn:L; simpl snd; unfold mapped; simpl vm_regions.
  - rewrite unmap_range_spec, andb_true_iff, negb_true_iff.
    intros [H1 H2]. split; [exact H1|].
    rewrite andb_false_iff, Z.leb_gt, Z.ltb_ge in H2. lia.
  - intros H. split; [exact H|].
    apply Z.ltb_ge in L. assert (len = 0) as -> by lia.
    rewrite page_up_0. lia.
Qed.

Lemma munmap_calls (addr len : Z) (m : vm) :
  exists ret : Z,
    vm_calls (snd (munmap addr len m)) = CallMunmap addr len ret :: vm_calls m.
Proof.
  unfold munmap. destruct (_ && _); eexists; reflexivity.
Qed.

Lemma size_t_nonneg (x : Z) : 0 <= size_t x.
Proof. unfold size_t. apply Z.mod_pos_bound. reflexivity. Qed.

(** A page boundary is not [MAP_FAILED]. *)
Lemma aligned_not_MAP_FAILED (a : Z) :
  a mod PAGE_SIZE = 0 -> (a =? MAP_FAILED) = false.
Proof.
  intros Ha. apply Z.eqb_neq. intros ->. discriminate Ha.
Qed.

(** [mmap] either fails, leaving the address space as it was and [errno] set,
    or maps the pages of [a, a + len) at a page boundary [a]. *)
Lemma mmap_cases (len fd off : Z) (m : vm) :
  (exists e : Z,
     mmap len fd off m =
     (MAP_FAILED,
      mk_vm (vm_regions m) e (CallMmap len fd off (MapFailed e) :: vm_calls m)))
  \/
  (exists a : Z,
     (a =? MAP_FAILED) = false /\ a mod PAGE_SIZE = 0 /\
     mmap len fd off m =
     (a,
      mk_vm ((a, a + page_up len) :: vm_regions m) (vm_errno m)
            (CallMmap len fd off (MapAt a) :: vm_calls m))).
Proof.
  unfold mmap.
  destruct (kernel_mmap m len fd off) as [e|n].
  - left. now exists e.
  - right. exists (n * PAGE_SIZE).
    assert (Ha : (n * PAGE_SIZE) mod PAGE_SIZE = 0)
      by (apply Z.mod_mul; discriminate).
    split; [now apply aligned_not_MAP_FAILED|]. now split.
Qed.

(** The projections of the records built along [io_uring_mmap]. *)
Ltac fields :=
  cbn [sq_ring_sz sq_set_ring_sz sq_set_pointers sq_set_iocbs sq_khead
       sq_iocbs cq_ring_sz cq_set_ring_sz vm_regions vm_errno vm_calls] in *.

(** X3.  The four ways through [io_uring_mmap], by the calls it makes (most
    recent first) and the value it returns: a refused [mmap] ends the attempt
    with [-errno], after a [munmap] at [sq->khead] when the SQ ring was mapped
    and, before it, a [munmap] of the descriptors when they were. *)
Lemma io_uring_mmap_calls
  (fd : Z) (p : io_uring_params) (sq : io_uring_sq) (cq : io_uring_cq) (m : vm) :
  let r := io_uring_mmap fd p sq cq m in
  let sz := size_t (sqo_array (sq_off p) + sq_entries p * sizeof_unsigned) in
  let size := size_t (sq_entries p * sizeof_io_uring_iocb) in
  let csz := size_t (cqo_events (cq_off p)
                     + cq_entries p * sizeof_io_uring_event) in
  (exists e : Z,
     out_ret r = - e /\
     vm_calls (out_vm r) =
       CallMmap sz fd IORING_OFF_SQ_RING (MapFailed e) :: vm_calls m) \/
  (exists a e u : Z,
     out_ret r = - e /\
     vm_calls (out_vm r) =
       CallMunmap (a + sqo_head (sq_off p)) sz u
       :: CallMmap size fd IORING_OFF_IOCB (MapFailed e)
       :: CallMmap sz fd IORING_OFF_SQ_RING (MapAt a) :: vm_calls m) \/
  (exists a b e u v : Z,
     out_ret r = - e /\
     vm_calls (out_vm r) =
       CallMunmap (a + sqo_head (sq_off p)) sz v
       :: CallMunmap b size u
       :: CallMmap csz fd IORING_OFF_CQ_RING (MapFailed e)
       :: CallMmap size fd IORING_OFF_IOCB (MapAt b)
       :: CallMmap sz fd IORING_OFF_SQ_RING (MapAt a) :: vm_calls m) \/
  (exists a b c : Z,
     out_ret r = fd /\
     vm_calls (out_vm r) =
       CallMmap csz fd IORING_OFF_CQ_RING (MapAt c)
       :: CallMmap size fd IORING_OFF_IOCB (MapAt b)
       :: CallMmap sz fd IORING_OFF_SQ_RING (MapAt a) :: vm_calls m).
Proof.
  cbv zeta. unfold io_uring_mmap. cbv zeta. fields.
  set (sz := size_t (sqo_array (sq_off p) + sq_entries p * sizeof_unsigned)).
  set (size := size_t (sq_entries p * sizeof_io_uring_iocb)).
  set (csz := size_t (cqo_events (cq_off p)
                      + cq_entries p * sizeof_io_uring_event)).
  destruct (mmap_cases sz fd IORING_OFF_SQ_RING m)
    as [(e1 & M1) | (a & Na & Aa & M1)]; rewrite M1; clear M1.
  - left. exists e1. rewrite Z.eqb_refl. now split.
  - right. rewrite Na. fields.
    match goal with |- context [mmap size fd IORING_OFF_IOCB ?m1] =>
      destruct (mmap_cases size fd IORING_OFF_IOCB m1)
        as [(e2 & M2) | (b & Nb & Ab & M2)]; rewrite M2; clear M2
    end.
    + left. rewrite Z.eqb_refl. fields.
      match goal with |- context [munmap ?x sz ?m2] =>
        destruct (munmap_calls x sz m2) as (u & C1);
        destruct (munmap x sz m2) as [u1 m3]
      end.
      exists a, e2, u. simpl in C1. now split.
    + right. rewrite Nb. fields.
      match goal with |- context [mmap csz fd IORING_OFF_CQ_RING ?m2] =>
        destruct (mmap_cases csz fd IORING_OFF_CQ_RING m2)
          as [(e3 & M3) | (c & Nc & Ac & M3)]; rewrite M3; clear M3
      end.
      * left. rewrite Z.eqb_refl. fields.
        match goal with |- context [munmap b size ?m3] =>
          destruct (munmap_calls b size m3) as (u & C1);
          destruct (munmap b size m3) as [u1 m4]
        end.
        match goal with |- context [munmap ?x sz m4] =>
          destruct (munmap_calls x sz m4) as (v & C2);
          destruct (munmap x sz m4) as [u2 m5]
        end.
        exists a, b, e3, u, v. simpl in C1, C2. split; [reflexivity|].
        simpl. now rewrite C2, C1.
      * right. rewrite Nc. exists a, b, c. now split.
Qed.

(** X20.  When the SQ head is the first field of the SQ ring region
    ([p->sq_off.head = 0], so that [sq->khead] is the address [mmap]
    returned), an attempt in which a [mmap] of [io_uring_mmap] fails with
    [errno = e] returns [-e], and no address is mapped after it that was not
    mapped before: the mappings the attempt had established are released. *)
Theorem mmap_failure_releases
  (fd : Z) (p : io_uring_params) (sq : io_uring_sq) (cq : io_uring_cq) (m : vm)
  (pre : list vm_call) (len fd' off e : Z) :
  sqo_head (sq_off p) = 0 ->
  vm_calls (out_vm (io_uring_mmap fd p sq cq m)) = pre ++ vm_calls m ->
  In (CallMmap len fd' off (MapFailed e)) pre ->
  out_ret (io_uring_mmap fd p sq cq m) = - e /\
  forall x : Z,
    mapped (out_vm (io_uring_mmap fd p sq cq m)) x = true -> mapped m x = true.
Proof.
  intros H0 Hc Hin.
  unfold io_uring_mmap in *. cbv zeta in *.
  cbn [sq_ring_sz sq_set_ring_sz] in *.
  set (sz := size_t (sqo_array (sq_off p) + sq_entries p * sizeof_unsigned)) in *.
  set (size := size_t (sq_entries p * sizeof_io_uring_iocb)) in *.
  set (csz := size_t (cqo_events (cq_off p)
                      + cq_entries p * sizeof_io_uring_event)) in *.
  destruct (mmap_cases sz fd IORING_OFF_SQ_RING m)
    as [(e1 & M1) | (a & Na & Aa & M1)]; rewrite M1 in *; clear M1.
  - (* the SQ ring is not mapped *)
    rewrite Z.eqb_refl in *. cbn [out_ret out_vm vm_errno vm_calls] in *.
    change (?c :: vm_calls m) with ([c] ++ vm_calls m) in Hc.
    apply app_inv_tail in Hc. subst pre.
    destruct Hin as [Hin|[]]. injection Hin as _ _ _ <-.
    split; [reflexivity|]. intros x. apply eq_ind. now apply mapped_regions.
  - rewrite Na in *. fields.
    rewrite H0, Z.add_0_r in *.
    match type of Hc with context [mmap size fd IORING_OFF_IOCB ?m1] =>
      destruct (mmap_cases size fd IORING_OFF_IOCB m1)
        as [(e2 & M2) | (b & Nb & Ab & M2)]; rewrite M2 in *; clear M2
    end.
    + (* the descriptors are not mapped: the SQ ring is unmapped *)
      rewrite Z.eqb_refl in *. fields.
      match type of Hc with context [munmap a sz ?m2] =>
        destruct (munmap_calls a sz m2) as (r1 & C1);
        pose proof (fun x => munmap_releases a sz m2 x Aa (size_t_nonneg _))
          as U1;
        destruct (munmap a sz m2) as [u1 m3]
      end.
      cbn [out_ret out_vm vm_errno vm_calls snd] in *.
      rewrite C1 in Hc.
      change (?c3 :: ?c2 :: ?c1 :: vm_calls m)
        with ([c3; c2; c1] ++ vm_calls m) in Hc.
      apply app_inv_tail in Hc. subst pre.
      destruct Hin as [Hin|[Hin|[Hin|[]]]]; try discriminate Hin.
      injection Hin as _ _ _ <-.
      split; [reflexivity|]. intros x Hx.
      destruct (U1 x Hx) as [Hm Hn].
      rewrite mapped_cons in Hm. apply orb_true_iff in Hm.
      destruct Hm as [Hm|Hm]; [|exact Hm].
      apply andb_true_iff in Hm. rewrite Z.leb_le, Z.ltb_lt in Hm. lia.
    + rewrite Nb in *. fields.
      match type of Hc with context [mmap csz fd IORING_OFF_CQ_RING ?m2] =>
        destruct (mmap_cases csz fd IORING_OFF_CQ_RING m2)
          as [(e3 & M3) | (c & Nc & Ac & M3)]; rewrite M3 in *; clear M3
      end.
      * (* the CQ ring is not mapped: descriptors and SQ ring are unmapped *)
        rewrite Z.eqb_refl in *. fields.
        match type of Hc with context [munmap b size ?m3] =>
          destruct (munmap_calls b size m3) as (r1 & C1);
          pose proof (fun x => munmap_releases b size m3 x Ab (size_t_nonneg _)) as U1;
          destruct (munmap b size m3) as [u1 m4]
        end.
        destruct (munmap_calls a sz m4) as (r2 & C2).
        pose proof (fun x => munmap_releases a sz m4 x Aa (size_t_nonneg _))
          as U2.
        destruct (munmap a sz m4) as [u2 m5].
        cbn [out_ret out_vm vm_errno vm_calls snd] in *.
        rewrite C2, C1 in Hc.
        change (?c5 :: ?c4 :: ?c3 :: ?c2 :: ?c1 :: vm_calls m)
          with ([c5; c4; c3; c2; c1] ++ vm_calls m) in Hc.
        apply app_inv_tail in Hc. subst pre.
        destruct Hin as [Hin|[Hin|[Hin|[Hin|[Hin|[]]]]]]; try discriminate Hin.
        injection Hin as _ _ _ <-.
        split; [reflexivity|]. intros x Hx.
        destruct (U2 x Hx) as [Hm4 Hn2].
        destruct (U1 x Hm4) as [Hm Hn1].
        rewrite !mapped_cons in Hm.
        rewrite !orb_true_iff, !andb_true_iff, !Z.leb_le, !Z.ltb_lt in Hm.
        destruct Hm as [Hm|[Hm|Hm]]; [lia|lia|exact Hm].
      * (* every stage succeeded: no failed [mmap] among the calls *)
        rewrite Nc in *. cbn [out_ret out_vm vm_errno vm_calls] in *.
        change (?c3 :: ?c2 :: ?c1 :: vm_calls m)
          with ([c3; c2; c1] ++ vm_calls m) in Hc.
        apply app_inv_tail in Hc. subst pre.
        destruct Hin as [Hin|[Hin|[Hin|[]]]]; discriminate Hin.
Qed.

(** * The life of a ring: [io_uring_queue_init] and [io_uring_queue_exit] *)

(** The process: its address space and its open file descriptors. *)
Record process : Type := mk_process {
  pr_vm : vm;
  pr_fds : list Z
}.

(** What [syscall(__NR_sys_io_uring_setup, entries, iovecs, p)] gives back:
    its result, [errno] after the call, and [*p] as the kernel filled it. *)
Record setup_result : Type := mk_setup {
  setup_ret : Z;
  setup_errno : Z;
  setup_params : io_uring_params
}.

(** The kernel's answer to [io_uring_setup], and the [unsigned] it has left
    at an address of a mapped ring. *)
Variable kernel_setup : process -> Z -> Z -> io_uring_params -> setup_result.
Variable mem_load : vm -> Z -> Z.

(** [io_uring_setup] of [syscall.c]: a result that is not negative is a file
    descriptor the kernel has opened. *)
Definition io_uring_setup (entries iovecs : Z) (p : io_uring_params)
  (pr : process) : Z * io_uring_params * process :=
  let r := kernel_setup pr entries iovecs p in
  (setup_ret r, setup_params r,
   mk_process
     (mk_vm (vm_regions (pr_vm pr)) (setup_errno r) (vm_calls (pr_vm pr)))
     (if 0 <=? setup_ret r then setup_ret r :: pr_fds pr else pr_fds pr)).

Definition EBADF : Z := 9.

(** [close(fd)]: the result and the process after the call.  An open
    descriptor is closed; one that is not open is refused with [EBADF]. *)
Definition close (fd : Z) (pr : process) : Z * process :=
  if existsb (Z.eqb fd) (pr_fds pr) then
    (0, mk_process (pr_vm pr) (remove Z.eq_dec fd (pr_fds pr)))
  else
    (-1,
     mk_process
       (mk_vm (vm_regions (pr_vm pr)) EBADF (vm_calls (pr_vm pr)))
       (pr_fds pr)).

(** [memset(sq, 0, sizeof( *sq))] and [memset(cq, 0, sizeof( *cq))]. *)
Definition sq_cleared : io_uring_sq := mk_sq 0 0 0 0 0 0 0 0 0 0 0.
Definition cq_cleared : io_uring_cq := mk_cq 0 0 0 0 0 0 0.

(** What [io_uring_queue_init] leaves behind: the value returned, [*p], the
    two descriptors and the process. *)
Record init_outcome : Type := mk_init {
  init_ret : Z;
  init_params : io_uring_params;
  init_sq : io_uring_sq;
  init_cq : io_uring_cq;
  init_process : process
}.

(** [io_uring_queue_init]. *)
Definition io_uring_queue_init (entries : Z) (p : io_uring_params)
  (iovecs : Z) (sq : io_uring_sq) (cq : io_uring_cq) (pr : process)
  : init_outcome :=
  let '(fd, p, pr) := io_uring_setup entries iovecs p pr in
  if fd <? 0 then mk_init fd p sq cq pr
  else
    let sq := sq_cleared in
    let cq := cq_cleared in
    let o := io_uring_mmap fd p sq cq (pr_vm pr) in
    mk_init (out_ret o) p (out_sq o) (out_cq o)
            (mk_process (out_vm o) (pr_fds pr)).

(** [io_uring_queue_exit]; [*sq->kring_entries] is read from the ring. *)
Definition io_uring_queue_exit (fd : Z) (sq : io_uring_sq) (cq : io_uring_cq)
  (pr : process) : process :=
  let m := pr_vm pr in
  let '(_, m) :=
    munmap (sq_iocbs sq)
           (size_t (mem_load m (sq_kring_entries sq) * sizeof_io_uring_iocb))
           m in
  let '(_, m) := munmap (sq_khead sq) (sq_ring_sz sq) m in
  let '(_, m) := munmap (cq_khead cq) (cq_ring_sz cq) m in
  let '(_, pr) := close fd (mk_process m (pr_fds pr)) in
  pr.

(** ** A successful [io_uring_mmap] *)

Lemma page_up_ge (len : Z) : len <= page_up len.
Proof.
  unfold page_up, PAGE_SIZE.
  pose proof (Z.div_mod (len + 4096 - 1) 4096) as D.
  pose proof (Z.mod_pos_bound (len + 4096 - 1) 4096) as B.
  lia.
Qed.

Lemma size_t_small (x : Z) : 0 <= x < 2 ^ 64 -> size_t x = x.
Proof. unfold size_t. apply Z.mod_small. Qed.

(** When the last call of [io_uring_mmap] is a [mmap] that succeeded, all
    three did: the three regions are mapped, the descriptors point into
    them, and the result is [fd]. *)
Lemma io_uring_mmap_success
  (fd : Z) (p : io_uring_params) (sq : io_uring_sq) (cq : io_uring_cq) (m : vm)
  (len f off c : Z) :
  hd_error (vm_calls (out_vm (io_uring_mmap fd p sq cq m)))
    = Some (CallMmap len f off (MapAt c)) ->
  let sz := size_t (sqo_array (sq_off p) + sq_entries p * sizeof_unsigned) in
  let size := size_t (sq_entries p * sizeof_io_uring_iocb) in
  let csz := size_t (cqo_events (cq_off p)
                     + cq_entries p * sizeof_io_uring_event) in
  exists a b : Z,
    a mod PAGE_SIZE = 0 /\ b mod PAGE_SIZE = 0 /\ c mod PAGE_SIZE = 0 /\
    io_uring_mmap fd p sq cq m =
    mk_outcome fd
      (sq_set_iocbs b (sq_set_pointers a (sq_off p) (sq_set_ring_sz sz sq)))
      (cq_set_pointers c (cq_off p) (cq_set_ring_sz csz cq))
      (mk_vm ((c, c + page_up csz) :: (b, b + page_up size)
              :: (a, a + page_up sz) :: vm_regions m)
             (vm_errno m)
             (CallMmap csz fd IORING_OFF_CQ_RING (MapAt c)
              :: CallMmap size fd IORING_OFF_IOCB (MapAt b)
              :: CallMmap sz fd IORING_OFF_SQ_RING (MapAt a) :: vm_calls m)).
Proof.
  cbv zeta. unfold io_uring_mmap. cbv zeta. fields.
  set (sz := size_t (sqo_array (sq_off p) + sq_entries p * sizeof_unsigned)).
  set (size := size_t (sq_entries p * sizeof_io_uring_iocb)).
  set (csz := size_t (cqo_events (cq_off p)
                      + cq_entries p * sizeof_io_uring_event)).
  destruct (mmap_cases sz fd IORING_OFF_SQ_RING m)
    as [(e1 & M1) | (a & Na & Aa & M1)]; rewrite M1; clear M1.
  { rewrite Z.eqb_refl. simpl. discriminate. }
  rewrite Na. fields.
  match goal with |- context [mmap size fd IORING_OFF_IOCB ?m1] =>
    destruct (mmap_cases size fd IORING_OFF_IOCB m1)
      as [(e2 & M2) | (b & Nb & Ab & M2)]; rewrite M2; clear M2
  end.
  { rewrite Z.eqb_refl. fields.
    match goal with |- context [munmap ?x sz ?m2] =>
      destruct (munmap_calls x sz m2) as (u & C1);
      destruct (munmap x sz m2) as [u1 m3]
    end.
    simpl in C1. simpl. rewrite C1. discriminate. }
  rewrite Nb. fields.
  match goal with |- context [mmap csz fd IORING_OFF_CQ_RING ?m2] =>
    destruct (mmap_cases csz fd IORING_OFF_CQ_RING m2)
      as [(e3 & M3) | (c' & Nc & Ac & M3)]; rewrite M3; clear M3
  end.
  { rewrite Z.eqb_refl. fields.
    match goal with |- context [munmap b size ?m3] =>
      destruct (munmap b size m3) as [u1 m4]
    end.
    match goal with |- context [munmap ?x sz m4] =>
      destruct (munmap_calls x sz m4) as (v & C2);
      destruct (munmap x sz m4) as [u2 m5]
    end.
    simpl in C2. simpl. rewrite C2. discriminate. }
  rewrite Nc. simpl. intros [= _ _ _ <-].
  exists a, b. repeat split; assumption.
Qed.

(** X13.  After a successful [io_uring_mmap] the three arrays lie in mapped
    memory from their first byte to their last: the [sq_entries] words of
    the indirection array, the [sq_entries] operation descriptors and the
    [cq_entries] completion records; and the result is [fd]. *)
Theorem mmap_success_covers_arrays
  (fd : Z) (p : io_uring_params) (sq : io_uring_sq) (cq : io_uring_cq) (m : vm)
  (len f off c : Z) :
  hd_error (vm_calls (out_vm (io_uring_mmap fd p sq cq m)))
    = Some (CallMmap len f off (MapAt c)) ->
  is_u32 (sq_entries p) -> is_u32 (cq_entries p) ->
  is_u32 (sqo_array (sq_off p)) -> is_u32 (cqo_events (cq_off p)) ->
  is_u32 sizeof_io_uring_iocb -> is_u32 sizeof_io_uring_event ->
  let o := io_uring_mmap fd p sq cq m in
  out_ret o = fd /\
  (forall x : Z,
     sq_array (out_sq o) <= x
       < sq_array (out_sq o) + sq_entries p * sizeof_unsigned ->
     mapped (out_vm o) x = true) /\
  (forall x : Z,
     sq_iocbs (out_sq o) <= x
       < sq_iocbs (out_sq o) + sq_entries p * sizeof_io_uring_iocb ->
     mapped (out_vm o) x = true) /\
  (forall x : Z,
     cq_events (out_cq o) <= x
       < cq_events (out_cq o) + cq_entries p * sizeof_io_uring_event ->
     mapped (out_vm o) x = true).
Proof.
  intros S Hse Hce Hsa Hcev Hsi Hsv. cbv zeta.
  destruct (io_uring_mmap_success _ _ _ _ _ _ _ _ _ S)
    as (a & b & _ & _ & _ & E).
  rewrite E. clear E S. cbn [out_ret out_sq out_cq out_vm].
  unfold is_u32, U32_MOD, sizeof_unsigned in *.
  assert (B64 : 2 ^ 32 * 2 ^ 32 = 2 ^ 64) by reflexivity.
  assert (Z1 : size_t (sqo_array (sq_off p) + sq_entries p * 4)
               = sqo_array (sq_off p) + sq_entries p * 4).
  { apply size_t_small. nia. }
  assert (Z2 : size_t (sq_entries p * sizeof_io_uring_iocb)
               = sq_entries p * sizeof_io_uring_iocb).
  { apply size_t_small. nia. }
  assert (Z3 : size_t (cqo_events (cq_off p)
                       + cq_entries p * sizeof_io_uring_event)
               = cqo_events (cq_off p) + cq_entries p * sizeof_io_uring_event).
  { apply size_t_small. nia. }
  rewrite Z1, Z2, Z3.
  pose proof (page_up_ge (sqo_array (sq_off p) + sq_entries p * 4)) as G1.
  pose proof (page_up_ge (sq_entries p * sizeof_io_uring_iocb)) as G2.
  pose proof (page_up_ge (cqo_events (cq_off p)
                          + cq_entries p * sizeof_io_uring_event)) as G3.
  split; [reflexivity|].
  repeat split;
    cbn [sq_array sq_iocbs cq_events sq_set_iocbs sq_set_pointers
         cq_set_pointers sq_set_ring_sz cq_set_ring_sz];
    intros x Hx; rewrite !mapped_cons;
    rewrite !orb_true_iff, !andb_true_iff, !Z.leb_le, !Z.ltb_lt.
  - right. right. left. lia.
  - right. left. lia.
  - left. lia.
Qed.

(** ** [io_uring_queue_init] *)

(** A [mmap] of [io_uring_mmap] that fails with [errno = e] makes the result
    [-e], wherever the ring's head lies in its region. *)
Lemma io_uring_mmap_failed_ret
  (fd : Z) (p : io_uring_params) (sq : io_uring_sq) (cq : io_uring_cq) (m : vm)
  (pre : list vm_call) (len fd' off e : Z) :
  vm_calls (out_vm (io_uring_mmap fd p sq cq m)) = pre ++ vm_calls m ->
  In (CallMmap len fd' off (MapFailed e)) pre ->
  out_ret (io_uring_mmap fd p sq cq m) = - e.
Proof.
  intros Hc Hin.
  unfold io_uring_mmap in *. cbv zeta in *.
  cbn [sq_ring_sz sq_set_ring_sz] in *.
  set (sz := size_t (sqo_array (sq_off p) + sq_entries p * sizeof_unsigned)) in *.
  set (size := size_t (sq_entries p * sizeof_io_uring_iocb)) in *.
  set (csz := size_t (cqo_events (cq_off p)
                      + cq_entries p * sizeof_io_uring_event)) in *.
  destruct (mmap_cases sz fd IORING_OFF_SQ_RING m)
    as [(e1 & M1) | (a & Na & Aa & M1)]; rewrite M1 in *; clear M1.
  - rewrite Z.eqb_refl in *. cbn [out_ret out_vm vm_errno vm_calls] in *.
    change (?c :: vm_calls m) with ([c] ++ vm_calls m) in Hc.
    apply app_inv_tail in Hc. subst pre.
    destruct Hin as [Hin|[]]. injection Hin as _ _ _ <-. reflexivity.
  - rewrite Na in *. fields.
    match type of Hc with context [mmap size fd IORING_OFF_IOCB ?m1] =>
      destruct (mmap_cases size fd IORING_OFF_IOCB m1)
        as [(e2 & M2) | (b & Nb & Ab & M2)]; rewrite M2 in *; clear M2
    end.
    + rewrite Z.eqb_refl in *. fields.
      match type of Hc with context [munmap ?x sz ?m2] =>
        destruct (munmap_calls x sz m2) as (r1 & C1);
        destruct (munmap x sz m2) as [u1 m3]
      end.
      cbn [out_ret out_vm vm_errno vm_calls snd] in *.
      rewrite C1 in Hc.
      change (?c3 :: ?c2 :: ?c1 :: vm_calls m)
        with ([c3; c2; c1] ++ vm_calls m) in Hc.
      apply app_inv_tail in Hc. subst pre.
      destruct Hin as [Hin|[Hin|[Hin|[]]]]; try discriminate Hin.
      injection Hin as _ _ _ <-. reflexivity.
    + rewrite Nb in *. fields.
      match type of Hc with context [mmap csz fd IORING_OFF_CQ_RING ?m2] =>
        destruct (mmap_cases csz fd IORING_OFF_CQ_RING m2)
          as [(e3 & M3) | (c & Nc & Ac & M3)]; rewrite M3 in *; clear M3
      end.
      * rewrite Z.eqb_refl in *. fields.
        match type of Hc with context [munmap b size ?m3] =>
          destruct (munmap_calls b size m3) as (r1 & C1);
          destruct (munmap b size m3) as [u1 m4]
        end.
        match type of Hc with context [munmap ?x sz m4] =>
          destruct (munmap_calls x sz m4) as (r2 & C2);
          destruct (munmap x sz m4) as [u2 m5]
        end.
        cbn [out_ret out_vm vm_errno vm_calls snd] in *.
        rewrite C2, C1 in Hc.
        change (?c5 :: ?c4 :: ?c3 :: ?c2 :: ?c1 :: vm_calls m)
          with ([c5; c4; c3; c2; c1] ++ vm_calls m) in Hc.
        apply app_inv_tail in Hc. subst pre.
        destruct Hin as [Hin|[Hin|[Hin|[Hin|[Hin|[]]]]]]; try discriminate Hin.
        injection Hin as _ _ _ <-. reflexivity.
      * rewrite Nc in *. cbn [out_ret out_vm vm_errno vm_calls] in *.
        change (?c3 :: ?c2 :: ?c1 :: vm_calls m)
          with ([c3; c2; c1] ++ vm_calls m) in Hc.
        apply app_inv_tail in Hc. subst pre.
        destruct Hin as [Hin|[Hin|[Hin|[]]]]; discriminate Hin.
Qed.

(** [io_uring_queue_init] after a successful [io_uring_setup]. *)
Lemma io_uring_queue_init_mapped
  (entries : Z) (p : io_uring_params) (iovecs : Z)
  (sq : io_uring_sq) (cq : io_uring_cq) (pr : process) :
  let r := kernel_setup pr entries iovecs p in
  0 <= setup_ret r ->
  let m := mk_vm (vm_regions (pr_vm pr)) (setup_errno r) (vm_calls (pr_vm pr)) in
  let o := io_uring_mmap (setup_ret r) (setup_params r) sq_cleared cq_cleared m in
  io_uring_queue_init entries p iovecs sq cq pr =
  mk_init (out_ret o) (setup_params r) (out_sq o) (out_cq o)
          (mk_process (out_vm o) (setup_ret r :: pr_fds pr)).
Proof.
  cbv zeta. intros H. unfold io_uring_queue_init, io_uring_setup.
  destruct (setup_ret _ <? 0) eqn:L; [apply Z.ltb_lt in L; lia|].
  apply Z.leb_le in H. rewrite H. reflexivity.
Qed.

(** X14.  When [io_uring_setup] fails, [io_uring_queue_init] returns its
    result as it is (-1, the error being in [errno]), maps nothing, and
    leaves the two descriptors as the caller gave them: they are not
    cleared. *)
Theorem queue_init_setup_failure
  (entries : Z) (p : io_uring_params) (iovecs : Z)
  (sq : io_uring_sq) (cq : io_uring_cq) (pr : process) :
  let r := kernel_setup pr entries iovecs p in
  let o := io_uring_queue_init entries p iovecs sq cq pr in
  setup_ret r < 0 ->
  init_ret o = setup_ret r /\
  init_sq o = sq /\ init_cq o = cq /\
  vm_errno (pr_vm (init_process o)) = setup_errno r /\
  vm_calls (pr_vm (init_process o)) = vm_calls (pr_vm pr) /\
  vm_regions (pr_vm (init_process o)) = vm_regions (pr_vm pr) /\
  pr_fds (init_process o) = pr_fds pr.
Proof.
  cbv zeta. intros H. unfold io_uring_queue_init, io_uring_setup.
  pose proof H as L. apply Z.ltb_lt in L. rewrite L.
  destruct (0 <=? setup_ret _) eqn:G; [apply Z.leb_le in G; lia|].
  repeat split.
Qed.

(** X15.  When [io_uring_setup] and the three [mmap]s succeed,
    [io_uring_queue_init] returns the descriptor [io_uring_setup] opened,
    which is open, and the ring starts empty: both shadow indices of the
    submission queue are 0 whatever the descriptor held before, its ring
    size is the size mapped, and the pointers of both rings lie at the
    kernel's offsets from the start of a page. *)
Theorem queue_init_success
  (entries : Z) (p : io_uring_params) (iovecs : Z)
  (sq : io_uring_sq) (cq : io_uring_cq) (pr : process)
  (len f off c : Z) :
  let r := kernel_setup pr entries iovecs p in
  let o := io_uring_queue_init entries p iovecs sq cq pr in
  0 <= setup_ret r ->
  hd_error (vm_calls (pr_vm (init_process o)))
    = Some (CallMmap len f off (MapAt c)) ->
  init_ret o = setup_ret r /\
  In (init_ret o) (pr_fds (init_process o)) /\
  iocb_head (init_sq o) = 0 /\ iocb_tail (init_sq o) = 0 /\
  sq_ring_sz (init_sq o)
    = size_t (sqo_array (sq_off (init_params o))
              + sq_entries (init_params o) * sizeof_unsigned) /\
  (sq_khead (init_sq o) - sqo_head (sq_off (init_params o))) mod PAGE_SIZE = 0 /\
  sq_array (init_sq o) - sqo_array (sq_off (init_params o))
    = sq_khead (init_sq o) - sqo_head (sq_off (init_params o)) /\
  sq_iocbs (init_sq o) mod PAGE_SIZE = 0 /\
  (cq_khead (init_cq o) - cqo_head (cq_off (init_params o))) mod PAGE_SIZE = 0 /\
  cq_events (init_cq o) - cqo_events (cq_off (init_params o))
    = cq_khead (init_cq o) - cqo_head (cq_off (init_params o)).
Proof.
  cbv zeta. intros H S.
  rewrite (io_uring_queue_init_mapped entries p iovecs sq cq pr H) in *.
  cbn [init_ret init_sq init_cq init_params init_process pr_vm pr_fds] in *.
  destruct (io_uring_mmap_success _ _ _ _ _ _ _ _ _ S)
    as (a & b & Aa & Ab & Ac & E).
  rewrite E. clear E S.
  cbn [out_ret out_sq out_cq out_vm sq_array sq_iocbs cq_events sq_khead
       cq_khead iocb_head iocb_tail sq_ring_sz sq_set_iocbs sq_set_pointers
       cq_set_pointers sq_set_ring_sz cq_set_ring_sz sq_cleared].
  split; [reflexivity|]. split; [now left|].
  split; [reflexivity|]. split; [reflexivity|]. split; [reflexivity|].
  split; [rewrite Z.add_simpl_r; exact Aa|].
  split; [lia|]. split; [exact Ab|].
  split; [rewrite Z.add_simpl_r; exact Ac|]. lia.
Qed.

(** X16.  When a [mmap] of [io_uring_mmap] fails with [errno = e] after
    [io_uring_setup] had succeeded, [io_uring_queue_init] returns [-e], not
    the descriptor, and the descriptor [io_uring_setup] opened is still
    open: no path of [io_uring_queue_init] closes it. *)
Theorem queue_init_mmap_failure_keeps_fd
  (entries : Z) (p : io_uring_params) (iovecs : Z)
  (sq : io_uring_sq) (cq : io_uring_cq) (pr : process)
  (pre : list vm_call) (len f off e : Z) :
  let r := kernel_setup pr entries iovecs p in
  let o := io_uring_queue_init entries p iovecs sq cq pr in
  0 <= setup_ret r ->
  vm_calls (pr_vm (init_process o)) = pre ++ vm_calls (pr_vm pr) ->
  In (CallMmap len f off (MapFailed e)) pre ->
  init_ret o = - e /\
  In (setup_ret r) (pr_fds (init_process o)).
Proof.
  cbv zeta. intros H Hc Hin.
  rewrite (io_uring_queue_init_mapped entries p iovecs sq cq pr H) in *.
  cbn [init_ret init_process pr_vm pr_fds] in *.
  split; [|now left].
  eapply io_uring_mmap_failed_ret; [exact Hc | exact Hin].
Qed.

(** ** [io_uring_queue_exit] *)

Lemma open_iff (fd : Z) (fds : list Z) :
  existsb (Z.eqb fd) fds = true <-> In fd fds.
Proof.
  rewrite existsb_exists. split.
  - intros (y & I & E). apply Z.eqb_eq in E. now subst y.
  - intros I. exists fd. split; [exact I | apply Z.eqb_refl].
Qed.

(** [close] of an open descriptor succeeds and leaves [errno] alone. *)
Lemma close_open (fd : Z) (pr : process) :
  In fd (pr_fds pr) ->
  close fd pr = (0, mk_process (pr_vm pr) (remove Z.eq_dec fd (pr_fds pr))).
Proof. intros I. unfold close. apply open_iff in I. now rewrite I. Qed.

(** [close] of a descriptor that is not open fails with [EBADF]. *)
Lemma close_not_open (fd : Z) (pr : process) :
  ~ In fd (pr_fds pr) ->
  close fd pr =
  (-1,
   mk_process (mk_vm (vm_regions (pr_vm pr)) EBADF (vm_calls (pr_vm pr)))
              (pr_fds pr)).
Proof.
  intros N. unfold close.
  destruct (existsb (Z.eqb fd) (pr_fds pr)) eqn:E; [|reflexivity].
  apply open_iff in E. contradiction.
Qed.

Lemma close_closes (fd : Z) (pr : process) :
  ~ In fd (pr_fds (snd (close fd pr))).
Proof.
  unfold close. destruct (existsb (Z.eqb fd) (pr_fds pr)) eqn:E; simpl.
  - apply remove_In.
  - intros I. apply open_iff in I. congruence.
Qed.

Lemma close_others (fd fd' : Z) (pr : process) :
  fd' <> fd -> In fd' (pr_fds pr) -> In fd' (pr_fds (snd (close fd pr))).
Proof.
  intros N I. unfold close. destruct (existsb _ _); simpl; [|exact I].
  now apply in_in_remove.
Qed.

Lemma close_regions (fd : Z) (pr : process) :
  vm_regions (pr_vm (snd (close fd pr))) = vm_regions (pr_vm pr).
Proof. unfold close. now destruct (existsb _ _). Qed.

Lemma close_calls (fd : Z) (pr : process) :
  vm_calls (pr_vm (snd (close fd pr))) = vm_calls (pr_vm pr).
Proof. unfold close. now destruct (existsb _ _). Qed.

(** The last line of [io_uring_queue_exit]. *)
Lemma let_close (fd : Z) (pr : process) :
  (let '(_, pr') := close fd pr in pr') = snd (close fd pr).
Proof. now destruct (close fd pr). Qed.

(** X17.  [io_uring_queue_exit] after a successful [io_uring_queue_init]
    gives back what the ring held, when both ring heads are the first field
    of their region and the ring still records [sq_entries] entries: no
    address is mapped that was not before [io_uring_queue_init], the
    descriptor is closed, and every other descriptor of the process is
    open as before. *)
Theorem queue_init_exit_round_trip
  (entries : Z) (p : io_uring_params) (iovecs : Z)
  (sq : io_uring_sq) (cq : io_uring_cq) (pr : process)
  (len f off c : Z) :
  let r := kernel_setup pr entries iovecs p in
  let o := io_uring_queue_init entries p iovecs sq cq pr in
  let pr' := io_uring_queue_exit (init_ret o) (init_sq o) (init_cq o)
                                 (init_process o) in
  0 <= setup_ret r ->
  hd_error (vm_calls (pr_vm (init_process o)))
    = Some (CallMmap len f off (MapAt c)) ->
  sqo_head (sq_off (init_params o)) = 0 ->
  cqo_head (cq_off (init_params o)) = 0 ->
  mem_load (pr_vm (init_process o)) (sq_kring_entries (init_sq o))
    = sq_entries (init_params o) ->
  (forall x : Z, mapped (pr_vm pr') x = true -> mapped (pr_vm pr) x = true) /\
  ~ In (init_ret o) (pr_fds pr') /\
  (forall fd' : Z, fd' <> init_ret o -> In fd' (pr_fds pr) -> In fd' (pr_fds pr')).
Proof.
  cbv zeta. intros H S.
  rewrite (io_uring_queue_init_mapped entries p iovecs sq cq pr H) in *.
  cbn [init_ret init_sq init_cq init_params init_process pr_vm pr_fds] in *.
  destruct (io_uring_mmap_success _ _ _ _ _ _ _ _ _ S)
    as (a & b & Aa & Ab & Ac & E).
  rewrite E. clear E S.
  cbn [out_ret out_sq out_cq out_vm].
  intros Hs Hq Hl.
  unfold io_uring_queue_exit.
  cbn [pr_vm pr_fds sq_array sq_iocbs cq_events sq_khead cq_khead
       sq_kring_entries sq_ring_sz cq_ring_sz
       sq_set_iocbs sq_set_pointers cq_set_pointers sq_set_ring_sz
       cq_set_ring_sz sq_cleared cq_cleared] in *.
  rewrite Hl, Hs, Hq, !Z.add_0_r.
  set (sz := size_t (sqo_array (sq_off (setup_params _))
                     + sq_entries (setup_params _) * sizeof_unsigned)).
  set (size := size_t (sq_entries (setup_params _) * sizeof_io_uring_iocb)).
  set (csz := size_t (cqo_events (cq_off (setup_params _))
                      + cq_entries (setup_params _) * sizeof_io_uring_event)).
  match goal with |- context [munmap b size ?m0] =>
    pose proof (fun x => munmap_releases b size m0 x Ab (size_t_nonneg _)) as U1;
    destruct (munmap b size m0) as [u1 m1]
  end.
  pose proof (fun x => munmap_releases a sz m1 x Aa (size_t_nonneg _)) as U2.
  destruct (munmap a sz m1) as [u2 m2].
  pose proof (fun x => munmap_releases c csz m2 x Ac (size_t_nonneg _)) as U3.
  destruct (munmap c csz m2) as [u3 m3].
  cbn [snd] in *. rewrite let_close.
  split; [|split].
  - intros x Hx.
    rewrite (mapped_regions _ _ x (close_regions _ _)) in Hx.
    cbn [pr_vm] in Hx.
    destruct (U3 x Hx) as [Hm2 N3].
    destruct (U2 x Hm2) as [Hm1 N2].
    destruct (U1 x Hm1) as [Hm N1].
    rewrite !mapped_cons in Hm.
    rewrite !orb_true_iff, !andb_true_iff, !Z.leb_le, !Z.ltb_lt in Hm.
    destruct Hm as [Hm|[Hm|[Hm|Hm]]]; [lia|lia|lia|].
    rewrite <- Hm. symmetry. now apply mapped_regions.
  - apply close_closes.
  - intros fd' N I. apply close_others; [exact N|]. cbn [pr_fds]. now right.
Qed.

(** [munmap] at an address that is not a page boundary fails with [EINVAL]
    and unmaps nothing. *)
Lemma munmap_unaligned (addr len : Z) (m : vm) :
  addr mod PAGE_SIZE <> 0 ->
  munmap addr len m =
  (-1, mk_vm (vm_regions m) EINVAL (CallMunmap addr len (-1) :: vm_calls m)).
Proof.
  intros N. unfold munmap. apply Z.eqb_neq in N. now rewrite N.
Qed.

(** [munmap] leaves mapped what lies outside the pages of its range. *)
Lemma munmap_keeps (addr len : Z) (m : vm) (x : Z) :
  mapped m x = true -> ~ (addr <= x < addr + page_up len) ->
  mapped (snd (munmap addr len m)) x = true.
Proof.
  intros Hm N. unfold munmap.
  destruct (_ && _); simpl snd; unfold mapped in *; simpl vm_regions;
    [|exact Hm].
  rewrite unmap_range_spec, Hm. simpl andb.
  apply negb_true_iff, andb_false_iff. rewrite Z.leb_gt, Z.ltb_ge. lia.
Qed.

(** X18.  [io_uring_queue_exit] releases a ring with [munmap] at the ring's
    head and looks at no result.  When neither head is on a page boundary
    both calls fail with [EINVAL]: everything mapped outside the pages of
    the operation descriptors stays mapped, the rings included.  The
    descriptor is closed all the same; [errno] is left at [EINVAL] when it
    was open, and at [EBADF] from the failing [close] when it was not. *)
Theorem queue_exit_unaligned_heads
  (fd : Z) (sq : io_uring_sq) (cq : io_uring_cq) (pr : process) :
  let pr' := io_uring_queue_exit fd sq cq pr in
  let size :=
    size_t (mem_load (pr_vm pr) (sq_kring_entries sq) * sizeof_io_uring_iocb) in
  sq_khead sq mod PAGE_SIZE <> 0 ->
  cq_khead cq mod PAGE_SIZE <> 0 ->
  (forall x : Z,
     mapped (pr_vm pr) x = true ->
     ~ (sq_iocbs sq <= x < sq_iocbs sq + page_up size) ->
     mapped (pr_vm pr') x = true) /\
  (exists r : Z,
     vm_calls (pr_vm pr') =
     CallMunmap (cq_khead cq) (cq_ring_sz cq) (-1)
     :: CallMunmap (sq_khead sq) (sq_ring_sz sq) (-1)
     :: CallMunmap (sq_iocbs sq) size r :: vm_calls (pr_vm pr)) /\
  (In fd (pr_fds pr) -> vm_errno (pr_vm pr') = EINVAL) /\
  (~ In fd (pr_fds pr) -> vm_errno (pr_vm pr') = EBADF) /\
  ~ In fd (pr_fds pr').
Proof.
  cbv zeta. intros Ns Nc. unfold io_uring_queue_exit.
  set (size := size_t (mem_load (pr_vm pr) (sq_kring_entries sq)
                       * sizeof_io_uring_iocb)).
  pose proof (fun x => munmap_keeps (sq_iocbs sq) size (pr_vm pr) x) as K.
  destruct (munmap_calls (sq_iocbs sq) size (pr_vm pr)) as (r & C).
  destruct (munmap (sq_iocbs sq) size (pr_vm pr)) as [u1 m1].
  rewrite (munmap_unaligned _ (sq_ring_sz sq) m1 Ns).
  rewrite (munmap_unaligned _ (cq_ring_sz cq) _ Nc).
  cbn [snd] in K, C. cbn [vm_regions vm_calls]. rewrite let_close.
  split; [|split; [|split; [|split]]].
  - intros x Hx N.
    rewrite (mapped_regions _ _ x (close_regions _ _)). cbn [pr_vm].
    rewrite <- (K x Hx N). now apply mapped_regions.
  - exists r. rewrite close_calls. cbn [pr_vm vm_calls]. now rewrite C.
  - intros I. rewrite close_open by exact I. reflexivity.
  - intros N. rewrite close_not_open by exact N. reflexivity.
  - apply close_closes.
Qed.

End Mapping.

(** ** The model at work: pages of 4096 bytes, a ring of depth 4 *)

(** [io_uring_mmap] with the sizes and offset tokens of the ABI this code was
    written against: descriptors of 64 bytes, completion records of 16, and
    the tokens 0, 0x10000000 and 0x8000000. *)
Definition io_uring_mmap_abi (kernel_mmap : vm -> Z -> Z -> Z -> mmap_choice)
  : Z -> io_uring_params -> io_uring_sq -> io_uring_cq -> vm -> mmap_outcome :=
  io_uring_mmap 64 16 0 268435456 134217728 kernel_mmap.

Definition ENOMEM : Z := 12.

(** The SQ ring and the descriptors are mapped, the CQ ring is refused. *)
Definition kernel_refuses_cq (m : vm) (len fd off : Z) : mmap_choice :=
  if off =? 0 then AtPage 16
  else if off =? 268435456 then AtPage 32
  else Refuse ENOMEM.

(** The SQ ring is mapped, the descriptors are refused. *)
Definition kernel_refuses_iocbs (m : vm) (len fd off : Z) : mmap_choice :=
  if off =? 0 then AtPage 16 else Refuse ENOMEM.

(** Offsets with the head first, and with the head 64 bytes into the SQ ring
    region. *)
Definition params_head_first : io_uring_params :=
  mk_params 4 8 (mk_sq_off 0 4 8 12 16 20 64) (mk_cq_off 0 4 8 12 16 64).

Definition params_head_at_64 : io_uring_params :=
  mk_params 4 8 (mk_sq_off 64 68 72 76 80 84 128) (mk_cq_off 0 4 8 12 16 64).

(** And with the head on the second page of the region. *)
Definition params_head_at_4096 : io_uring_params :=
  mk_params 4 8 (mk_sq_off 4096 4100 4104 4108 4112 4116 4160)
            (mk_cq_off 0 4 8 12 16 64).

Definition sq_zero : io_uring_sq := mk_sq 0 0 0 0 0 0 0 0 0 0 0.
Definition cq_zero : io_uring_cq := mk_cq 0 0 0 0 0 0 0.
Definition vm_empty : vm := mk_vm [] 0 [].

Example mmap_all_stages :
  out_ret (io_uring_mmap_abi (fun _ _ _ off => AtPage (16 + off / 4096)) 3
             params_head_first sq_zero cq_zero vm_empty) = 3 /\
  vm_regions (out_vm (io_uring_mmap_abi (fun _ _ _ off => AtPage (16 + off / 4096)) 3
                        params_head_first sq_zero cq_zero vm_empty)) =
  [(134283264, 134287360); (268500992, 268505088); (65536, 69632)].
Proof. split; vm_compute; reflexivity. Qed.

Example mmap_refused_cq_calls :
  vm_calls (out_vm (io_uring_mmap_abi kernel_refuses_cq 3 params_head_first
                      sq_zero cq_zero vm_empty)) =
  [CallMunmap 65536 80 0; CallMunmap 131072 256 0;
   CallMmap 192 3 134217728 (MapFailed ENOMEM);
   CallMmap 256 3 268435456 (MapAt 131072);
   CallMmap 80 3 0 (MapAt 65536)].
Proof. vm_compute. reflexivity. Qed.

(** With the head on the second page [munmap] accepts the address and unmaps
    two pages from there; the first page of the region stays. *)
Example mmap_head_on_second_page :
  vm_calls (out_vm (io_uring_mmap_abi kernel_refuses_iocbs 3 params_head_at_4096
                      sq_zero cq_zero vm_empty)) =
  [CallMunmap 69632 4176 0;
   CallMmap 256 3 268435456 (MapFailed ENOMEM);
   CallMmap 4176 3 0 (MapAt 65536)] /\
  vm_regions (out_vm (io_uring_mmap_abi kernel_refuses_iocbs 3
                        params_head_at_4096 sq_zero cq_zero vm_empty)) =
  [(65536, 69632)].
Proof. split; vm_compute; reflexivity. Qed.

(** *** X20 *)

Lemma mmap_failure_releases_witness :
  out_ret (io_uring_mmap_abi kernel_refuses_cq 3 params_head_first
             sq_zero cq_zero vm_empty) = - ENOMEM /\
  forall x : Z,
    mapped (out_vm (io_uring_mmap_abi kernel_refuses_cq 3 params_head_first
                      sq_zero cq_zero vm_empty)) x = true ->
    mapped vm_empty x = true.
Proof.
  apply (mmap_failure_releases 64 16 0 268435456 134217728
           kernel_refuses_cq 3 params_head_first sq_zero cq_zero vm_empty
           [CallMunmap 65536 80 0; CallMunmap 131072 256 0;
            CallMmap 192 3 134217728 (MapFailed ENOMEM);
            CallMmap 256 3 268435456 (MapAt 131072);
            CallMmap 80 3 0 (MapAt 65536)]
           192 3 134217728 ENOMEM).
  - reflexivity.
  - vm_compute. reflexivity.
  - right. right. left. reflexivity.
Defined.

(** *** C7 *)

(** C7.  The error path of [io_uring_mmap] releases the descriptors with the
    address [mmap] returned, and the SQ ring with [sq->khead], which is that
    region's address plus [p->sq_off.head].  With the head 64 bytes into
    the region and the CQ ring refused, the descriptors are released, the
    [munmap] of the SQ ring is refused with [EINVAL], and the page at 65536,
    mapped by this attempt, is still mapped when [io_uring_mmap] returns
    [-ENOMEM]: a mapping of the attempt remains on the failure path. *)
Theorem mmap_head_offset_leaks :
  let r := io_uring_mmap_abi kernel_refuses_cq 3 params_head_at_64
                            sq_zero cq_zero vm_empty in
  out_ret r = - ENOMEM /\
  vm_calls (out_vm r) =
    [CallMunmap 65600 144 (-1);
     CallMunmap 131072 256 0;
     CallMmap 192 3 134217728 (MapFailed ENOMEM);
     CallMmap 256 3 268435456 (MapAt 131072);
     CallMmap 144 3 0 (MapAt 65536)] /\
  vm_regions (out_vm r) = [(65536, 69632)] /\
  mapped vm_empty 65536 = false /\
  mapped (out_vm r) 65536 = true /\
  mapped (out_vm r) 131072 = false /\
  ~ (forall x : Z, mapped (out_vm r) x = true -> mapped vm_empty x = true).
Proof.
  cbv zeta.
  split; [vm_compute; reflexivity|].
  split; [vm_compute; reflexivity|].
  split; [vm_compute; reflexivity|].
  split; [vm_compute; reflexivity|].
  split; [vm_compute; reflexivity|].
  split; [vm_compute; reflexivity|].
  intros H. specialize (H 65536). vm_compute in H.
  specialize (H eq_refl). discriminate H.
Qed.

(** The same when it is the descriptors that are refused. *)
Example mmap_head_offset_iocbs_refused :
  let r := io_uring_mmap_abi kernel_refuses_iocbs 3 params_head_at_64
                            sq_zero cq_zero vm_empty in
  out_ret r = - ENOMEM /\
  vm_calls (out_vm r) =
    [CallMunmap 65600 144 (-1);
     CallMmap 256 3 268435456 (MapFailed ENOMEM);
     CallMmap 144 3 0 (MapAt 65536)] /\
  mapped (out_vm r) 65536 = true.
Proof.
  cbv zeta.
  split; [vm_compute; reflexivity|].
  split; vm_compute; reflexivity.
Qed.


(** ** The life of a ring *)

Definition io_uring_queue_init_abi
  (k : vm -> Z -> Z -> Z -> mmap_choice)
  (s : process -> Z -> Z -> io_uring_params -> setup_result) :=
  io_uring_queue_init 64 16 0 268435456 134217728 k s.

Definition io_uring_queue_exit_abi (l : vm -> Z -> Z) :=
  io_uring_queue_exit 64 l.

(** Every region is mapped, at a page that depends on the offset token. *)
Definition kernel_maps (m : vm) (len fd off : Z) : mmap_choice :=
  AtPage (16 + off / 4096).

(** [io_uring_setup] opens descriptor 3 on a ring laid out as
    [params_head_first], or as [params_heads_at_64], or fails. *)
Definition kernel_opens (pr : process) (entries iovecs : Z)
  (p : io_uring_params) : setup_result :=
  mk_setup 3 0 params_head_first.

Definition params_heads_at_64 : io_uring_params :=
  mk_params 4 8 (mk_sq_off 64 68 72 76 80 84 128)
            (mk_cq_off 64 68 72 76 80 128).

Definition kernel_opens_at_64 (pr : process) (entries iovecs : Z)
  (p : io_uring_params) : setup_result :=
  mk_setup 3 0 params_heads_at_64.

Definition kernel_declines (pr : process) (entries iovecs : Z)
  (p : io_uring_params) : setup_result :=
  mk_setup (-1) ENOMEM p.

(** The kernel has stored the number of entries, 4, in the SQ ring. *)
Definition ring_memory (m : vm) (addr : Z) : Z :=
  if (addr =? 65536 + 12) || (addr =? 65536 + 76) then 4 else 0.

(** Descriptors the caller has not initialised, and a process with the
    standard descriptors open. *)
Definition sq_stale : io_uring_sq := mk_sq 1 2 3 4 5 6 7 8 9 10 11.
Definition cq_stale : io_uring_cq := mk_cq 1 2 3 4 5 6 7.
Definition a_process : process := mk_process vm_empty [0; 1; 2].

Definition ring_mapped : mmap_outcome :=
  io_uring_mmap_abi kernel_maps 3 params_head_first sq_zero cq_zero vm_empty.

Definition init_declined : init_outcome :=
  io_uring_queue_init_abi kernel_maps kernel_declines
    4 params_head_first 0 sq_stale cq_stale a_process.

Definition init_opened : init_outcome :=
  io_uring_queue_init_abi kernel_maps kernel_opens
    4 params_head_first 0 sq_stale cq_stale a_process.

Definition init_refused_cq : init_outcome :=
  io_uring_queue_init_abi kernel_refuses_cq kernel_opens
    4 params_head_first 0 sq_stale cq_stale a_process.

Definition init_opened_at_64 : init_outcome :=
  io_uring_queue_init_abi kernel_maps kernel_opens_at_64
    4 params_head_first 0 sq_stale cq_stale a_process.

Definition exit_of (o : init_outcome) : process :=
  io_uring_queue_exit_abi ring_memory
    (init_ret o) (init_sq o) (init_cq o) (init_process o).

Example init_opened_descriptors :
  init_ret init_opened = 3 /\
  init_sq init_opened =
    mk_sq 65536 65540 65544 65548 65552 65556 65600 268500992 0 0 80 /\
  init_cq init_opened =
    mk_cq 134283264 134283268 134283272 134283276 134283280 134283328 192 /\
  pr_fds (init_process init_opened) = [3; 0; 1; 2].
Proof. repeat split; vm_compute; reflexivity. Qed.

Example exit_after_init :
  vm_regions (pr_vm (exit_of init_opened)) = [] /\
  pr_fds (exit_of init_opened) = [0; 1; 2] /\
  vm_calls (pr_vm (exit_of init_opened)) =
  [CallMunmap 134283264 192 0; CallMunmap 65536 80 0;
   CallMunmap 268500992 256 0;
   CallMmap 192 3 134217728 (MapAt 134283264);
   CallMmap 256 3 268435456 (MapAt 268500992);
   CallMmap 80 3 0 (MapAt 65536)].
Proof. repeat split; vm_compute; reflexivity. Qed.

(** With both heads 64 bytes into their regions only the descriptors are
    released. *)
Example exit_after_init_at_64 :
  vm_regions (pr_vm (exit_of init_opened_at_64)) =
  [(134283264, 134287360); (65536, 69632)] /\
  pr_fds (exit_of init_opened_at_64) = [0; 1; 2] /\
  vm_calls (pr_vm (exit_of init_opened_at_64)) =
  [CallMunmap 134283328 256 (-1); CallMunmap 65600 144 (-1);
   CallMunmap 268500992 256 0;
   CallMmap 256 3 134217728 (MapAt 134283264);
   CallMmap 256 3 268435456 (MapAt 268500992);
   CallMmap 144 3 0 (MapAt 65536)].
Proof. repeat split; vm_compute; reflexivity. Qed.

(** *** X13 *)

Lemma mmap_success_covers_arrays_witness :
  out_ret ring_mapped = 3 /\
  (forall x : Z,
     sq_array (out_sq ring_mapped) <= x
       < sq_array (out_sq ring_mapped)
         + sq_entries params_head_first * sizeof_unsigned ->
     mapped (out_vm ring_mapped) x = true) /\
  (forall x : Z,
     sq_iocbs (out_sq ring_mapped) <= x
       < sq_iocbs (out_sq ring_mapped) + sq_entries params_head_first * 64 ->
     mapped (out_vm ring_mapped) x = true) /\
  (forall x : Z,
     cq_events (out_cq ring_mapped) <= x
       < cq_events (out_cq ring_mapped) + cq_entries params_head_first * 16 ->
     mapped (out_vm ring_mapped) x = true).
Proof.
  apply (mmap_success_covers_arrays 64 16 0 268435456 134217728 kernel_maps
           3 params_head_first sq_zero cq_zero vm_empty
           192 3 134217728 134283264);
    [vm_compute; reflexivity | | | | | | ];
    vm_compute; (split; [discriminate | reflexivity]).
Defined.

(** *** X14 *)

Lemma queue_init_setup_failure_witness :
  init_ret init_declined = -1 /\
  init_sq init_declined = sq_stale /\ init_cq init_declined = cq_stale /\
  vm_errno (pr_vm (init_process init_declined)) = ENOMEM /\
  vm_calls (pr_vm (init_process init_declined)) = vm_calls (pr_vm a_process) /\
  vm_regions (pr_vm (init_process init_declined))
    = vm_regions (pr_vm a_process) /\
  pr_fds (init_process init_declined) = pr_fds a_process.
Proof.
  apply (queue_init_setup_failure 64 16 0 268435456 134217728
           kernel_maps kernel_declines
           4 params_head_first 0 sq_stale cq_stale a_process).
  reflexivity.
Defined.

(** *** X15 *)

Lemma queue_init_success_witness :
  init_ret init_opened = 3 /\
  In (init_ret init_opened) (pr_fds (init_process init_opened)) /\
  iocb_head (init_sq init_opened) = 0 /\
  iocb_tail (init_sq init_opened) = 0 /\
  sq_ring_sz (init_sq init_opened)
    = size_t (sqo_array (sq_off (init_params init_opened))
              + sq_entries (init_params init_opened) * sizeof_unsigned) /\
  (sq_khead (init_sq init_opened)
   - sqo_head (sq_off (init_params init_opened))) mod PAGE_SIZE = 0 /\
  sq_array (init_sq init_opened) - sqo_array (sq_off (init_params init_opened))
    = sq_khead (init_sq init_opened)
      - sqo_head (sq_off (init_params init_opened)) /\
  sq_iocbs (init_sq init_opened) mod PAGE_SIZE = 0 /\
  (cq_khead (init_cq init_opened)
   - cqo_head (cq_off (init_params init_opened))) mod PAGE_SIZE = 0 /\
  cq_events (init_cq init_opened)
  - cqo_events (cq_off (init_params init_opened))
    = cq_khead (init_cq init_opened)
      - cqo_head (cq_off (init_params init_opened)).
Proof.
  apply (queue_init_success 64 16 0 268435456 134217728
           kernel_maps kernel_opens
           4 params_head_first 0 sq_stale cq_stale a_process
           192 3 134217728 134283264).
  - discriminate.
  - vm_compute. reflexivity.
Defined.

(** *** X16 *)

Lemma queue_init_mmap_failure_keeps_fd_witness :
  init_ret init_refused_cq = - ENOMEM /\
  In 3 (pr_fds (init_process init_refused_cq)).
Proof.
  apply (queue_init_mmap_failure_keeps_fd 64 16 0 268435456 134217728
           kernel_refuses_cq kernel_opens
           4 params_head_first 0 sq_stale cq_stale a_process
           [CallMunmap 65536 80 0; CallMunmap 131072 256 0;
            CallMmap 192 3 134217728 (MapFailed ENOMEM);
            CallMmap 256 3 268435456 (MapAt 131072);
            CallMmap 80 3 0 (MapAt 65536)]
           192 3 134217728 ENOMEM).
  - discriminate.
  - vm_compute. reflexivity.
  - right. right. left. reflexivity.
Defined.

(** *** X17 *)

Lemma queue_init_exit_round_trip_witness :
  (forall x : Z,
     mapped (pr_vm (exit_of init_opened)) x = true ->
     mapped (pr_vm a_process) x = true) /\
  ~ In (init_ret init_opened) (pr_fds (exit_of init_opened)) /\
  (forall fd' : Z,
     fd' <> init_ret init_opened -> In fd' (pr_fds a_process) ->
     In fd' (pr_fds (exit_of init_opened))).
Proof.
  apply (queue_init_exit_round_trip 64 16 0 268435456 134217728
           kernel_maps kernel_opens ring_memory
           4 params_head_first 0 sq_stale cq_stale a_process
           192 3 134217728 134283264).
  - discriminate.
  - vm_compute. reflexivity.
  - reflexivity.
  - reflexivity.
  - vm_compute. reflexivity.
Defined.

(** *** X18 *)

Lemma queue_exit_unaligned_heads_witness :
  (forall x : Z,
     mapped (pr_vm (init_process init_opened_at_64)) x = true ->
     ~ (sq_iocbs (init_sq init_opened_at_64) <= x
        < sq_iocbs (init_sq init_opened_at_64)
          + page_up
              (size_t
                 (ring_memory (pr_vm (init_process init_opened_at_64))
                    (sq_kring_entries (init_sq init_opened_at_64)) * 64))) ->
     mapped (pr_vm (exit_of init_opened_at_64)) x = true) /\
  (exists r : Z,
     vm_calls (pr_vm (exit_of init_opened_at_64)) =
     CallMunmap (cq_khead (init_cq init_opened_at_64))
                (cq_ring_sz (init_cq init_opened_at_64)) (-1)
     :: CallMunmap (sq_khead (init_sq init_opened_at_64))
                   (sq_ring_sz (init_sq init_opened_at_64)) (-1)
     :: CallMunmap (sq_iocbs (init_sq init_opened_at_64))
                   (size_t
                      (ring_memory (pr_vm (init_process init_opened_at_64))
                         (sq_kring_entries (init_sq init_opened_at_64)) * 64))
                   r
     :: vm_calls (pr_vm (init_process init_opened_at_64))) /\
  (In (init_ret init_opened_at_64) (pr_fds (init_process init_opened_at_64)) ->
   vm_errno (pr_vm (exit_of init_opened_at_64)) = EINVAL) /\
  (~ In (init_ret init_opened_at_64)
        (pr_fds (init_process init_opened_at_64)) ->
   vm_errno (pr_vm (exit_of init_opened_at_64)) = EBADF) /\
  ~ In (init_ret init_opened_at_64) (pr_fds (exit_of init_opened_at_64)).
Proof.
  apply (queue_exit_unaligned_heads 64 ring_memory
           (init_ret init_opened_at_64) (init_sq init_opened_at_64)
           (init_cq init_opened_at_64) (init_process init_opened_at_64));
    vm_compute; discriminate.
Defined.

(** The descriptor of the ring is open, and [errno] is what the last
    [munmap] left; with a descriptor that is not open, 7, it is what
    [close] left. *)
Example exit_errno :
  vm_errno (pr_vm (exit_of init_opened_at_64)) = EINVAL /\
  vm_errno (pr_vm (io_uring_queue_exit_abi ring_memory 7
                     (init_sq init_opened_at_64) (init_cq init_opened_at_64)
                     (init_process init_opened_at_64))) = EBADF /\
  pr_fds (io_uring_queue_exit_abi ring_memory 7
            (init_sq init_opened_at_64) (init_cq init_opened_at_64)
            (init_process init_opened_at_64)) = [3; 0; 1; 2].
Proof. split; [|split]; vm_compute; reflexivity. Qed.

End Setup.
